(** * fetchy: a fetch wrapper with default headers, timeout and error
      normalisation

    A shallow embedding of the four variants of the [fetchy] helper:
    - [FetchyLib]          src/lib/fetchy.ts (instance methods, timeout);
    - [FetchyCache]        static methods, [cache] enum option;
    - [FetchyResponseType] instance methods, timeout and [responseType];
    - [FetchyShouldCache]  static methods, [shouldCache] boolean option.

    Option objects are finite maps from property names to values, so that
    object spread and rest destructuring are map union and deletion, in
    the order the source writes them.  The transport ([fetch]), timers
    and the body decoders of a response belong to the platform; they are
    described by a [World] that every statement quantifies over. *)

From Stdlib Require Import ZArith String Ascii List DecimalString.
From stdpp Require Import gmap strings list fin_maps.

Set Warnings "-register-all".

Local Open Scope string_scope.
Local Open Scope Z_scope.

(** ** Values *)

(** JSON documents: what [response.json()] yields and what
    [JSON.stringify] receives.  Numbers are the integers; the members of
    an object are kept in insertion order. *)
Inductive JsonValue : Type :=
  | JNull
  | JBool (b : bool)
  | JNum (n : Z)
  | JStr (s : string)
  | JArr (items : list JsonValue)
  | JObj (members : list (string * JsonValue)).

(** The abort signals a transport can be handed: the one of the
    controller that [request] creates, or one owned by the caller. *)
Inductive signal : Type :=
  | OwnSignal
  | CallerSignal (id : nat).

(** The values found in an options object. *)
Inductive value : Type :=
  | VUndefined
  | VNull
  | VBool (b : bool)
  | VNum (n : Z)
  | VStr (s : string)
  | VRecord (fields : gmap string string)
  | VSignal (s : signal).

#[global] Instance signal_eq_dec : EqDecision signal.
Proof. solve_decision. Defined.

#[global] Instance value_eq_dec : EqDecision value.
Proof. solve_decision. Defined.

(** ** The language's own operations *)

Definition decimal (n : Z) : string := NilZero.string_of_int (Z.to_int n).

(** Truthiness, as [||] and [?:] test it. *)
Definition truthy (j : JsonValue) : bool :=
  match j with
  | JNull => false
  | JBool b => b
  | JNum n => negb (n =? 0)
  | JStr s => negb (String.eqb s "")
  | JArr _ | JObj _ => true
  end.

Definition truthy_value (v : value) : bool :=
  match v with
  | VUndefined | VNull => false
  | VBool b => b
  | VNum n => negb (n =? 0)
  | VStr s => negb (String.eqb s "")
  | VRecord _ | VSignal _ => true
  end.

(** String conversion, as [new Error(x)] and a template literal apply
    it. *)
Fixpoint to_string (j : JsonValue) : string :=
  match j with
  | JNull => "null"
  | JBool true => "true"
  | JBool false => "false"
  | JNum n => decimal n
  | JStr s => s
  | JArr items =>
      (fix join (l : list JsonValue) : string :=
         match l with
         | [] => ""
         | x :: rest =>
             (match x with JNull => "" | _ => to_string x end)
               ++ match rest with [] => "" | _ => "," ++ join rest end
         end) items
  | JObj _ => "[object Object]"
  end.

Definition value_to_string (v : value) : string :=
  match v with
  | VUndefined => "undefined"
  | VNull => "null"
  | VBool true => "true"
  | VBool false => "false"
  | VNum n => decimal n
  | VStr s => s
  | VRecord _ => "[object Object]"
  | VSignal _ => "[object AbortSignal]"
  end.

(** [JSON.stringify] on a document. *)
Definition dquote : ascii := ascii_of_N 34.
Definition backslash : ascii := ascii_of_N 92.

Definition hex_digit (n : N) : ascii :=
  match n with
  | 0 => "0" | 1 => "1" | 2 => "2" | 3 => "3" | 4 => "4" | 5 => "5"
  | 6 => "6" | 7 => "7" | 8 => "8" | 9 => "9" | 10 => "a" | 11 => "b"
  | 12 => "c" | 13 => "d" | 14 => "e" | _ => "f"
  end%N%char.

Definition escape_char (c : ascii) : string :=
  let n := N_of_ascii c in
  let esc (x : string) := String backslash x in
  if (n =? 34)%N then esc (String c "")
  else if (n =? 92)%N then esc (String c "")
  else if (n =? 8)%N then esc "b"
  else if (n =? 9)%N then esc "t"
  else if (n =? 10)%N then esc "n"
  else if (n =? 12)%N then esc "f"
  else if (n =? 13)%N then esc "r"
  else if (n <? 32)%N then
    esc ("u00" ++ String (hex_digit (n / 16)) (String (hex_digit (n mod 16)) ""))
  else String c "".

Fixpoint escape (s : string) : string :=
  match s with
  | EmptyString => ""
  | String c rest => escape_char c ++ escape rest
  end.

Definition quote (s : string) : string :=
  String dquote (escape s) ++ String dquote "".

Fixpoint JSON_stringify (j : JsonValue) : string :=
  match j with
  | JNull => "null"
  | JBool true => "true"
  | JBool false => "false"
  | JNum n => decimal n
  | JStr s => quote s
  | JArr items =>
      "[" ++
      (fix elements (l : list JsonValue) : string :=
         match l with
         | [] => ""
         | x :: rest =>
             JSON_stringify x
               ++ match rest with [] => "" | _ => "," ++ elements rest end
         end) items
      ++ "]"
  | JObj members =>
      "{" ++
      (fix entries (l : list (string * JsonValue)) : string :=
         match l with
         | [] => ""
         | (k, x) :: rest =>
             quote k ++ ":" ++ JSON_stringify x
               ++ match rest with [] => "" | _ => "," ++ entries rest end
         end) members
      ++ "}"
  end.

(** An exception raised by the platform: a [SyntaxError] of the JSON
    decoder, a [TypeError], an [AbortError]. *)
Record Exception : Type := { exn_name : string; exn_message : string }.

(** Property read [j.message]: reading a property of [null] throws, a
    primitive or an array has no such property, an object yields its
    member.  (A parsed object has distinct keys.) *)
Definition null_read : Exception :=
  {| exn_name := "TypeError";
     exn_message := "Cannot read properties of null (reading 'message')" |}.

Fixpoint member (key : string) (members : list (string * JsonValue)) : option JsonValue :=
  match members with
  | [] => None
  | (k, x) :: rest => if String.eqb k key then Some x else member key rest
  end.

Definition read_message (j : JsonValue) : Exception + option JsonValue :=
  match j with
  | JNull => inl null_read
  | JObj members => inr (member "message" members)
  | _ => inr None
  end.

(** [m || fallback] handed to [new Error]: a truthy [m] is used (as a
    string), anything else gives the fallback. *)
Definition or_fallback (m : option JsonValue) (fallback : string) : string :=
  match m with
  | Some x => if truthy x then to_string x else fallback
  | None => fallback
  end.

(** ** The platform: responses, transport, timers *)

Record Blob : Type := { blob_type : string; blob_bytes : list Byte.byte }.

(** A response exposes its status and one decoder per representation;
    a decoder either yields a value or rejects. *)
Record Response : Type := {
  status : Z;
  json : Exception + JsonValue;
  text : Exception + string;
  blob : Exception + Blob;
  arrayBuffer : Exception + list Byte.byte
}.

(** [response.ok] *)
Definition ok (r : Response) : bool := (200 <=? status r) && (status r <=? 299).

(** What a call can throw: a platform exception passed through, or an
    [Error] the wrapper builds, possibly with [cause: { response }]. *)
Record JsError : Type := {
  name : string;
  message : string;
  cause : option Response
}.

Definition rethrow (e : Exception) : JsError :=
  {| name := exn_name e; message := exn_message e; cause := None |}.

Definition new_Error (msg : string) (c : option Response) : JsError :=
  {| name := "Error"; message := msg; cause := c |}.

Definition AbortError : Exception :=
  {| exn_name := "AbortError"; exn_message := "The operation was aborted." |}.

(** How a pending operation ends, on a clock counting milliseconds from
    the start of the call.  Only the transport takes time on this clock;
    decoding a body that has arrived takes none. *)
Inductive settle (A : Type) : Type :=
  | Resolves (at_ms : nat) (a : A)
  | Rejects (at_ms : nat) (e : Exception)
  | Hangs.
Arguments Resolves {A} at_ms a.
Arguments Rejects {A} at_ms e.
Arguments Hangs {A}.

Definition settled_by {A} (deadline : nat) (s : settle A) : bool :=
  match s with
  | Resolves t _ | Rejects t _ => (t <=? deadline)%nat
  | Hangs => false
  end.

(** The environment of a call: what the network does with a request that
    nobody aborts, and when (if ever) each caller-owned signal aborts. *)
Record World : Type := {
  network : string -> gmap string value -> settle Response;
  caller_abort : nat -> option nat
}.

(** [fetch(url, init)] without a wrapper timer: the network's course,
    cut short by the caller's signal when [init] carries one. *)
Definition fetch (w : World) (url : string) (init : gmap string value) : settle Response :=
  let course := network w url init in
  match init !! "signal" with
  | Some (VSignal (CallerSignal id)) =>
      match caller_abort w id with
      | Some t => if settled_by t course then course else Rejects t AbortError
      | None => course
      end
  | _ => course
  end.

(** [setTimeout(f, delay)]: the delay in milliseconds.  The declared type
    of [timeout] is [number]; a negative delay counts as zero.  (What the
    platform does with a delay beyond its 32-bit range is left out.) *)
Definition timer_delay (v : value) : nat :=
  match v with
  | VNum n => Z.to_nat n
  | VBool true => 1%nat
  | _ => 0%nat
  end.

(** The race between a pending [fetch] and the timer that calls
    [controller.abort()]: whether the timer fired while the call was
    pending, and how the awaited [fetch] ends.  The abort reaches the
    transport only if [init.signal] is the controller's signal. *)
Definition listens (init : gmap string value) : bool :=
  bool_decide (init !! "signal" = Some (VSignal OwnSignal)).

Definition race (delay : nat) (init : gmap string value) (course : settle Response)
  : bool * settle Response :=
  if settled_by delay course then (false, course)
  else (true, if listens init then Rejects delay AbortError else course).

(** ** Runs *)

Inductive decoded : Type :=
  | DJson (j : JsonValue)
  | DText (s : string)
  | DBlob (b : Blob)
  | DArrayBuffer (bytes : list Byte.byte).

Inductive outcome : Type :=
  | Returned (d : decoded)
  | Threw (e : JsError)
  | Pending.

(** What a call does to the platform, in order. *)
Inductive event : Type :=
  | SetTimeout (ms : nat)
  | Fetch (url : string) (init : gmap string value)
  | Abort
  | ReadBody (how : string)
  | ClearTimeout.

Record run : Type := { result : outcome; trace : list event }.

(** The requests handed to the transport during a run. *)
Fixpoint issued (tr : list event) : list (string * gmap string value) :=
  match tr with
  | [] => []
  | Fetch url init :: rest => (url, init) :: issued rest
  | _ :: rest => issued rest
  end.

(** The promise a decoder returns, as the outcome of the call that
    returns it. *)
Definition deliver {A} (wrap : A -> decoded) (body : Exception + A) : outcome :=
  match body with
  | inl e => Threw (rethrow e)
  | inr a => Returned (wrap a)
  end.

Definition settles (o : outcome) : run := {| result := o; trace := [] |}.

Definition throw (e : JsError) : run := settles (Threw e).

(** Events that happen before the rest of a run. *)
Definition after (evs : list event) (r : run) : run :=
  {| result := result r; trace := evs ++ trace r |}.

(** [try { body } finally { cleanup }]: the cleanup runs when the body
    completes, by a return or by a throw; it never runs while the body
    is still waiting. *)
Definition try_finally (body : run) (cleanup : list event) : run :=
  match result body with
  | Pending => body
  | _ => {| result := result body; trace := trace body ++ cleanup |}
  end.

(** ** Object literals *)

(** Property read [o.key]; a missing property reads as [undefined]. *)
Definition prop (o : gmap string value) (key : string) : value :=
  match o !! key with
  | Some v => v
  | None => VUndefined
  end.

(** [{ ...target, ...source }]: later properties replace earlier ones. *)
Definition spread {V} (target source : gmap string V) : gmap string V :=
  source ∪ target.

(** [...x] inside a literal of string properties: the own properties of a
    record, nothing for [undefined], [null], a number or a boolean.  The
    declared type of [headers] is a record of strings; whatever else the
    caller puts there is handed to the transport as it is, and what it
    would spread to is never seen (lemma [headers_sent_as_given]). *)
Definition own_fields (x : value) : gmap string string :=
  match x with
  | VRecord fields => fields
  | _ => ∅
  end.

(** [{ key = d, ...rest } = o]: the default applies when the property
    reads as [undefined]; [rest] is [o] without [key]. *)
Definition or_default (d : value) (x : value) : value :=
  match x with
  | VUndefined => d
  | _ => x
  end.

Definition omit (key : string) (o : gmap string value) : gmap string value :=
  delete key o.

(** [x || d] *)
Definition or_else (x d : value) : value :=
  if truthy_value x then x else d.

(** ** src/lib/fetchy.ts *)

Module FetchyLib.

(** The literal handed to [fetch]:
    [{ headers: { "Content-Type": "application/json", ...fetchOptions.headers },
       signal: controller.signal, ...fetchOptions }]. *)
Definition transport_options (fetchOptions : gmap string value) : gmap string value :=
  spread
    {[ "headers" :=
         VRecord (spread {[ "Content-Type" := "application/json" ]}
                         (own_fields (prop fetchOptions "headers")));
       "signal" := VSignal OwnSignal ]}
    fetchOptions.

Definition request (w : World) (url : string) (options : gmap string value) : run :=
  let timeout := or_default (VNum 5000) (prop options "timeout") in
  let fetchOptions := omit "timeout" options in
  let init := transport_options fetchOptions in
  let '(fired, answer) := race (timer_delay timeout) init (fetch w url init) in
  after [SetTimeout (timer_delay timeout)]
    (try_finally
       (after (Fetch url init :: if fired then [Abort] else [])
          match answer with
          | Hangs => settles Pending
          | Rejects _ e => throw (rethrow e)
          | Resolves _ response =>
              if negb (ok response) then
                after [ReadBody "json"]
                  match json response with
                  | inl e => throw (rethrow e)
                  | inr error =>
                      match read_message error with
                      | inl e => throw (rethrow e)
                      | inr m =>
                          throw (new_Error
                                   (or_fallback m "An error occurred while fetching the data.")
                                   (Some response))
                      end
                  end
              else
                after [ReadBody "json"] (settles (deliver DJson (json response)))
          end)
       [ClearTimeout]).

Definition get (w : World) (url : string) (options : gmap string value) : run :=
  request w url (<["method" := VStr "GET"]> options).

Definition post (w : World) (url : string) (body : JsonValue)
    (options : gmap string value) : run :=
  request w url
    (<["body" := VStr (JSON_stringify body)]> (<["method" := VStr "POST"]> options)).

Definition put (w : World) (url : string) (body : JsonValue)
    (options : gmap string value) : run :=
  request w url
    (<["body" := VStr (JSON_stringify body)]> (<["method" := VStr "PUT"]> options)).

Definition delete (w : World) (url : string) (options : gmap string value) : run :=
  request w url (<["method" := VStr "DELETE"]> options).

(** The timeout window of a call, and how its awaited [fetch] ends. *)
Definition timeout_ms (options : gmap string value) : nat :=
  timer_delay (or_default (VNum 5000) (prop options "timeout")).

Definition awaited (w : World) (url : string) (options : gmap string value)
  : settle Response :=
  let init := transport_options (omit "timeout" options) in
  snd (race (timeout_ms options) init (fetch w url init)).

End FetchyLib.

(** ** The variant with a [cache] option (class [fetchy], static methods) *)

Module FetchyCache.

(** The literal handed to [fetch]:
    [{ headers: { "Content-Type": "application/json", ...fetchOptions.headers },
       ...(cache === "no-cache" ? { cache: "no-cache" } : {}), ...fetchOptions }]. *)
Definition transport_options (cache : value) (fetchOptions : gmap string value)
  : gmap string value :=
  spread
    (spread
       {[ "headers" :=
            VRecord (spread {[ "Content-Type" := "application/json" ]}
                            (own_fields (prop fetchOptions "headers"))) ]}
       (if decide (cache = VStr "no-cache")
        then {[ "cache" := VStr "no-cache" ]} else ∅))
    fetchOptions.

Definition request (w : World) (url : string) (options : gmap string value) : run :=
  let cache := prop options "cache" in
  let fetchOptions := omit "cache" options in
  let init := transport_options cache fetchOptions in
  after [Fetch url init]
    match fetch w url init with
    | Hangs => settles Pending
    | Rejects _ e => throw (rethrow e)
    | Resolves _ response =>
        if negb (ok response) then
          after [ReadBody "json"]
            match json response with
            | inl e => throw (rethrow e)
            | inr error =>
                match read_message error with
                | inl e => throw (rethrow e)
                | inr m => throw (new_Error (or_fallback m "An error occurred") None)
                end
            end
        else
          after [ReadBody "json"] (settles (deliver DJson (json response)))
    end.

Definition get (w : World) (url : string) (options : gmap string value) : run :=
  request w url (<["method" := VStr "GET"]> options).

Definition post (w : World) (url : string) (body : JsonValue)
    (options : gmap string value) : run :=
  request w url
    (<["body" := VStr (JSON_stringify body)]> (<["method" := VStr "POST"]> options)).

Definition put (w : World) (url : string) (body : JsonValue)
    (options : gmap string value) : run :=
  request w url
    (<["body" := VStr (JSON_stringify body)]> (<["method" := VStr "PUT"]> options)).

Definition delete (w : World) (url : string) (options : gmap string value) : run :=
  request w url (<["method" := VStr "DELETE"]> options).

Definition awaited (w : World) (url : string) (options : gmap string value)
  : settle Response :=
  fetch w url (transport_options (prop options "cache") (omit "cache" options)).

End FetchyCache.

(** ** The variant with [timeout] and [responseType] (callable export) *)

Module FetchyResponseType.

Definition parseResponse (response : Response) (options : gmap string value) : run :=
  let selected := or_else (prop options "responseType") (VStr "json") in
  if decide (selected = VStr "json") then
    after [ReadBody "json"] (settles (deliver DJson (json response)))
  else if decide (selected = VStr "text") then
    after [ReadBody "text"] (settles (deliver DText (text response)))
  else if decide (selected = VStr "blob") then
    after [ReadBody "blob"] (settles (deliver DBlob (blob response)))
  else if decide (selected = VStr "arrayBuffer") then
    after [ReadBody "arrayBuffer"]
      (settles (deliver DArrayBuffer (arrayBuffer response)))
  else
    throw (new_Error
             ("Unsupported response type: "
                ++ value_to_string (prop options "responseType"))
             None).

(** The literal handed to [fetch], as in src/lib/fetchy.ts. *)
Definition transport_options (fetchOptions : gmap string value) : gmap string value :=
  spread
    {[ "headers" :=
         VRecord (spread {[ "Content-Type" := "application/json" ]}
                         (own_fields (prop fetchOptions "headers")));
       "signal" := VSignal OwnSignal ]}
    fetchOptions.

Definition request (w : World) (url : string) (options : gmap string value) : run :=
  let timeout := or_default (VNum 5000) (prop options "timeout") in
  let fetchOptions := omit "timeout" options in
  let init := transport_options fetchOptions in
  let '(fired, answer) := race (timer_delay timeout) init (fetch w url init) in
  after [SetTimeout (timer_delay timeout)]
    (try_finally
       (after (Fetch url init :: if fired then [Abort] else [])
          match answer with
          | Hangs => settles Pending
          | Rejects _ e => throw (rethrow e)
          | Resolves _ response =>
              if negb (ok response) then
                let errorMessage := "An error occurred while fetching the data." in
                if decide (prop options "responseType" = VStr "json") then
                  after [ReadBody "json"]
                    match json response with
                    | inl e => throw (rethrow e)
                    | inr error =>
                        match read_message error with
                        | inl e => throw (rethrow e)
                        | inr m =>
                            throw (new_Error (or_fallback m errorMessage)
                                             (Some response))
                        end
                    end
                else
                  throw (new_Error errorMessage (Some response))
              else
                parseResponse response options
          end)
       [ClearTimeout]).

Definition get (w : World) (url : string) (options : gmap string value) : run :=
  request w url (<["method" := VStr "GET"]> options).

Definition async (w : World) (url : string) (options : gmap string value) : run :=
  get w url options.

Definition post (w : World) (url : string) (body : JsonValue)
    (options : gmap string value) : run :=
  request w url
    (<["body" := VStr (JSON_stringify body)]> (<["method" := VStr "POST"]> options)).

Definition put (w : World) (url : string) (body : JsonValue)
    (options : gmap string value) : run :=
  request w url
    (<["body" := VStr (JSON_stringify body)]> (<["method" := VStr "PUT"]> options)).

Definition delete (w : World) (url : string) (options : gmap string value) : run :=
  request w url (<["method" := VStr "DELETE"]> options).

(** The default export called as a function,
    [(url, options?) => fetchy.get(url, options)]: options left out are
    the default [{}] of [get]. *)
Definition call (w : World) (url : string) (options : option (gmap string value)) : run :=
  get w url (default ∅ options).

Definition timeout_ms (options : gmap string value) : nat :=
  timer_delay (or_default (VNum 5000) (prop options "timeout")).

Definition awaited (w : World) (url : string) (options : gmap string value)
  : settle Response :=
  let init := transport_options (omit "timeout" options) in
  snd (race (timeout_ms options) init (fetch w url init)).

End FetchyResponseType.

(** ** The variant with a [shouldCache] option (class [Fetchy], static
       methods) *)

Module FetchyShouldCache.

(** The literal handed to [fetch]:
    [{ headers: { "Content-Type": "application/json", ...fetchOptions.headers },
       ...(shouldCache ? {} : { cache: "no-cache" }), ...fetchOptions }]. *)
Definition transport_options (shouldCache : value) (fetchOptions : gmap string value)
  : gmap string value :=
  spread
    (spread
       {[ "headers" :=
            VRecord (spread {[ "Content-Type" := "application/json" ]}
                            (own_fields (prop fetchOptions "headers"))) ]}
       (if truthy_value shouldCache
        then ∅ else {[ "cache" := VStr "no-cache" ]}))
    fetchOptions.

Definition request (w : World) (url : string) (options : gmap string value) : run :=
  let shouldCache := or_default (VBool true) (prop options "shouldCache") in
  let fetchOptions := omit "shouldCache" options in
  let init := transport_options shouldCache fetchOptions in
  after [Fetch url init]
    match fetch w url init with
    | Hangs => settles Pending
    | Rejects _ e => throw (rethrow e)
    | Resolves _ response =>
        if negb (ok response) then
          after [ReadBody "json"]
            match json response with
            | inl e => throw (rethrow e)
            | inr error =>
                match read_message error with
                | inl e => throw (rethrow e)
                | inr m =>
                    throw (new_Error
                             (or_fallback m "An error occurred while fetching the data.")
                             None)
                end
            end
        else
          after [ReadBody "json"] (settles (deliver DJson (json response)))
    end.

Definition get (w : World) (url : string) (options : gmap string value) : run :=
  request w url (<["method" := VStr "GET"]> options).

Definition post (w : World) (url : string) (body : JsonValue)
    (options : gmap string value) : run :=
  request w url
    (<["body" := VStr (JSON_stringify body)]> (<["method" := VStr "POST"]> options)).

Definition put (w : World) (url : string) (body : JsonValue)
    (options : gmap string value) : run :=
  request w url
    (<["body" := VStr (JSON_stringify body)]> (<["method" := VStr "PUT"]> options)).

Definition delete (w : World) (url : string) (options : gmap string value) : run :=
  request w url (<["method" := VStr "DELETE"]> options).

Definition awaited (w : World) (url : string) (options : gmap string value)
  : settle Response :=
  fetch w url
    (transport_options (or_default (VBool true) (prop options "shouldCache"))
                       (omit "shouldCache" options)).

End FetchyShouldCache.

(** ** The pre-commit hook *)

Module PreCommit.

(** What the hook runs. *)
Inductive command : Type :=
  | PrettierCheck
  | Echo (text : string)
  | PrettierWrite.

Record hook_run : Type := { commands : list command; exit_status : nat }.

(** The script, given the exit statuses with which [npx prettier --check .]
    and [npx prettier --write .] would end.  A script that runs off its
    end after an [if] whose condition failed exits with status 0. *)
Definition hook (check write : nat) : hook_run :=
  let RESULT := check in
  if negb (RESULT =? 0)%nat then
    {| commands :=
         [PrettierCheck;
          Echo "Prettier found issues; Commit aborted; Fixing prettier issues.";
          PrettierWrite];
       exit_status := 1 |}
  else
    {| commands := [PrettierCheck]; exit_status := 0 |}.

End PreCommit.

(** ** Vocabulary of the statements *)

(** The run hands exactly one request to the transport, for [url], and
    its options satisfy [P]. *)
Definition hands_over (r : run) (url : string) (P : gmap string value -> Prop) : Prop :=
  exists init, issued (trace r) = [(url, init)] /\ P init.

(** The run ends by throwing an error that satisfies [P]. *)
Definition fails_with (r : run) (P : JsError -> Prop) : Prop :=
  exists e, result r = Threw e /\ P e.

(** The transport is handed this [method]. *)
Definition sends_method (r : run) (url method : string) : Prop :=
  hands_over r url (fun init => init !! "method" = Some (VStr method)).

(** The transport is handed this [cache] entry, or none. *)
Definition sends_cache (r : run) (url : string) (directive : option value) : Prop :=
  hands_over r url (fun init => init !! "cache" = directive).

(** What the failure branch throws, given the fallback text and the
    [cause] the variant attaches. *)
Definition http_failure (fallback : string) (c : option Response) (r : Response)
  : outcome :=
  match json r with
  | inl e => Threw (rethrow e)
  | inr error =>
      match read_message error with
      | inl e => Threw (rethrow e)
      | inr m => Threw (new_Error (or_fallback m fallback) c)
      end
  end.

(** What returning [response.json()] amounts to. *)
Definition json_decoder (r : Response) : outcome :=
  match json r with
  | inr j => Returned (DJson j)
  | inl e => Threw (rethrow e)
  end.

(** The rule the code follows once the transport has returned [r]. *)
Definition status_rule (r : Response) (x : run) (decoder : outcome) : Prop :=
  (ok r = false -> exists e, result x = Threw e)
  /\ (ok r = true -> result x = decoder).

(** How the message of the raised error follows from the error body. *)
Definition message_rule (fallback : string) (r : Response) (x : run) : Prop :=
  (forall e, json r = inl e -> result x = Threw (rethrow e))
  /\ (forall j s, json r = inr j -> read_message j = inr (Some (JStr s)) ->
        s <> "" -> fails_with x (fun e => message e = s))
  /\ (forall j, json r = inr j -> read_message j = inr None ->
        fails_with x (fun e => message e = fallback)).

(** A [responseType] that [parseResponse] has no case for. *)
Definition unrecognized (v : value) : Prop :=
  truthy_value v = true
  /\ v <> VStr "json" /\ v <> VStr "text" /\ v <> VStr "blob" /\ v <> VStr "arrayBuffer".

(** An error raised because the operation was cancelled. *)
Definition abort_style (e : JsError) : Prop := name e = "AbortError".

(** The events that arm or disarm the timer. *)
Definition timer_event (ev : event) : bool :=
  match ev with
  | SetTimeout _ | ClearTimeout => true
  | _ => false
  end.

(** The timer in a run: armed first, with [ms]; disarmed last, and
    exactly when the call has settled; in between neither armed nor
    disarmed.  The firing of the timer ([Abort]) can thus only come
    before the call settles. *)
Definition timer_discipline (ms : nat) (x : run) : Prop :=
  exists middle,
    forallb (fun ev => negb (timer_event ev)) middle = true
    /\ trace x
       = (SetTimeout ms :: middle
            ++ match result x with Pending => [] | _ => [ClearTimeout] end)%list.

(** The run of a call that outlasts its window. *)
Definition timed_out (ms : nat) (url : string) (init : gmap string value) (x : run) : Prop :=
  fails_with x abort_style
  /\ trace x = [SetTimeout ms; Fetch url init; Abort; ClearTimeout].

(** The body decoders a run invokes, in order. *)
Fixpoint body_reads (tr : list event) : list string :=
  match tr with
  | [] => []
  | ReadBody how :: rest => how :: body_reads rest
  | _ :: rest => body_reads rest
  end.

(** The decoder a returned value comes from. *)
Definition decoder_name (d : decoded) : string :=
  match d with
  | DJson _ => "json"
  | DText _ => "text"
  | DBlob _ => "blob"
  | DArrayBuffer _ => "arrayBuffer"
  end.

(** What a run reads, given how its awaited [fetch] ends. *)
Definition reads_once (answer : settle Response) (x : run) : Prop :=
  (length (body_reads (trace x)) <= 1)%nat
  /\ (forall d, result x = Returned d -> body_reads (trace x) = [decoder_name d])
  /\ (forall t e, answer = Rejects t e ->
        result x = Threw (rethrow e) /\ body_reads (trace x) = [])
  /\ (answer = Hangs -> body_reads (trace x) = []).


(** ** Scenarios *)

(** A response whose body is a JSON document, and one whose body is not
    JSON at all. *)
Definition json_response (code : Z) (body : JsonValue) : Response :=
  let raw := JSON_stringify body in
  {| status := code;
     json := inr body;
     text := inr raw;
     blob := inr {| blob_type := "application/json";
                    blob_bytes := list_byte_of_string raw |};
     arrayBuffer := inr (list_byte_of_string raw) |}.

Definition SyntaxError (msg : string) : Exception :=
  {| exn_name := "SyntaxError"; exn_message := msg |}.

Definition raw_response (code : Z) (raw : string) (complaint : string) : Response :=
  {| status := code;
     json := inl (SyntaxError complaint);
     text := inr raw;
     blob := inr {| blob_type := "text/plain";
                    blob_bytes := list_byte_of_string raw |};
     arrayBuffer := inr (list_byte_of_string raw) |}.

(** A world in which every request ends the same way and no caller
    signal ever aborts. *)
Definition always (s : settle Response) : World :=
  {| network := fun _ _ => s; caller_abort := fun _ => None |}.

(** * Properties *)

(** ** Serialisation and string conversion, on samples *)

Example stringify_name_B :
  JSON_stringify (JObj [("name", JStr "B")])
  = "{" ++ quote "name" ++ ":" ++ quote "B" ++ "}".
Proof. reflexivity. Qed.

Example stringify_nested :
  JSON_stringify (JObj [("id", JNum 2); ("tags", JArr [JStr "a"; JNull; JBool true])])
  = "{" ++ quote "id" ++ ":2," ++ quote "tags" ++ ":[" ++ quote "a" ++ ",null,true]}".
Proof. reflexivity. Qed.

Example to_string_samples :
  to_string (JArr [JNum 1; JNull; JStr "x"]) = "1,,x"
  /\ to_string (JNum (-7)) = "-7"
  /\ to_string (JObj []) = "[object Object]".
Proof. repeat split; reflexivity. Qed.

(** ** Object literals and traces *)

Lemma spread_lookup {V} (target source : gmap string V) (key : string) :
  spread target source !! key
  = match source !! key with Some v => Some v | None => target !! key end.
Proof.
  unfold spread. rewrite lookup_union.
  destruct (source !! key), (target !! key); reflexivity.
Qed.

Lemma omit_lookup_ne (key other : string) (o : gmap string value) :
  key <> other -> omit key o !! other = o !! other.
Proof. intros Hne. unfold omit. by rewrite lookup_delete_ne. Qed.

Lemma issued_app (a b : list event) :
  issued (a ++ b) = (issued a ++ issued b)%list.
Proof.
  induction a as [|ev a IH]; [reflexivity|].
  destruct ev; simpl; rewrite IH; reflexivity.
Qed.

Lemma after_trace (evs : list event) (r : run) :
  trace (after evs r) = (evs ++ trace r)%list.
Proof. reflexivity. Qed.

Lemma after_result (evs : list event) (r : run) : result (after evs r) = result r.
Proof. reflexivity. Qed.

Lemma try_finally_result (body : run) (cleanup : list event) :
  result (try_finally body cleanup) = result body.
Proof. unfold try_finally. destruct (result body) eqn:E; simpl; congruence. Qed.

Lemma try_finally_issued (body : run) (cleanup : list event) :
  issued cleanup = [] ->
  issued (trace (try_finally body cleanup)) = issued (trace body).
Proof.
  intros Hc. unfold try_finally.
  destruct (result body); simpl; rewrite ?issued_app, ?Hc, ?app_nil_r; reflexivity.
Qed.

(** ** What each variant hands to the transport *)

Ltac settle_cases :=
  repeat match goal with
         | |- context [match ?x with _ => _ end] => destruct x eqn:?
         | |- context [if ?b then _ else _] => destruct b eqn:?
         end.

Lemma FetchyLib_issued (w : World) (url : string) (options : gmap string value) :
  issued (trace (FetchyLib.request w url options))
  = [(url, FetchyLib.transport_options (omit "timeout" options))].
Proof.
  unfold FetchyLib.request.
  destruct (race _ _ _) as [fired answer].
  rewrite after_trace. simpl issued.
  rewrite try_finally_issued by reflexivity.
  rewrite after_trace. simpl.
  destruct fired; simpl; settle_cases; reflexivity.
Qed.

Lemma FetchyResponseType_issued (w : World) (url : string) (options : gmap string value) :
  issued (trace (FetchyResponseType.request w url options))
  = [(url, FetchyResponseType.transport_options (omit "timeout" options))].
Proof.
  unfold FetchyResponseType.request.
  destruct (race _ _ _) as [fired answer].
  rewrite after_trace. simpl issued.
  rewrite try_finally_issued by reflexivity.
  rewrite after_trace. simpl.
  unfold FetchyResponseType.parseResponse.
  destruct fired; simpl; settle_cases; reflexivity.
Qed.

Lemma FetchyCache_issued (w : World) (url : string) (options : gmap string value) :
  issued (trace (FetchyCache.request w url options))
  = [(url, FetchyCache.transport_options (prop options "cache") (omit "cache" options))].
Proof.
  unfold FetchyCache.request. rewrite after_trace. simpl.
  settle_cases; reflexivity.
Qed.

Lemma FetchyShouldCache_issued (w : World) (url : string) (options : gmap string value) :
  issued (trace (FetchyShouldCache.request w url options))
  = [(url, FetchyShouldCache.transport_options
             (or_default (VBool true) (prop options "shouldCache"))
             (omit "shouldCache" options))].
Proof.
  unfold FetchyShouldCache.request. rewrite after_trace. simpl.
  settle_cases; reflexivity.
Qed.

Ltac handed_over :=
  eexists; split;
  [ first [ apply FetchyLib_issued | apply FetchyResponseType_issued
          | apply FetchyCache_issued | apply FetchyShouldCache_issued ]
  | cbv beta ].

(** Every entry of [fetchOptions] reaches the transport unchanged: the
    spread of [fetchOptions] comes last in each literal. *)
Lemma FetchyLib_caller_entry (fetchOptions : gmap string value) (key : string) (v : value) :
  fetchOptions !! key = Some v ->
  FetchyLib.transport_options fetchOptions !! key = Some v.
Proof.
  intros H. unfold FetchyLib.transport_options. rewrite spread_lookup, H. reflexivity.
Qed.

Lemma FetchyResponseType_caller_entry
    (fetchOptions : gmap string value) (key : string) (v : value) :
  fetchOptions !! key = Some v ->
  FetchyResponseType.transport_options fetchOptions !! key = Some v.
Proof.
  intros H. unfold FetchyResponseType.transport_options.
  rewrite spread_lookup, H. reflexivity.
Qed.

Lemma FetchyCache_caller_entry
    (cache : value) (fetchOptions : gmap string value) (key : string) (v : value) :
  fetchOptions !! key = Some v ->
  FetchyCache.transport_options cache fetchOptions !! key = Some v.
Proof.
  intros H. unfold FetchyCache.transport_options. rewrite spread_lookup, H. reflexivity.
Qed.

Lemma FetchyShouldCache_caller_entry
    (shouldCache : value) (fetchOptions : gmap string value) (key : string) (v : value) :
  fetchOptions !! key = Some v ->
  FetchyShouldCache.transport_options shouldCache fetchOptions !! key = Some v.
Proof.
  intros H. unfold FetchyShouldCache.transport_options.
  rewrite spread_lookup, H. reflexivity.
Qed.

(** The wrappers add nothing but [headers], [signal] and [cache]. *)
Lemma FetchyLib_other_entry (fetchOptions : gmap string value) (key : string) :
  key <> "headers" -> key <> "signal" ->
  FetchyLib.transport_options fetchOptions !! key = fetchOptions !! key.
Proof.
  intros Hh Hs. unfold FetchyLib.transport_options. rewrite spread_lookup.
  destruct (fetchOptions !! key); [reflexivity|].
  rewrite lookup_insert_ne by congruence. by rewrite lookup_singleton_ne.
Qed.

Lemma FetchyResponseType_other_entry (fetchOptions : gmap string value) (key : string) :
  key <> "headers" -> key <> "signal" ->
  FetchyResponseType.transport_options fetchOptions !! key = fetchOptions !! key.
Proof.
  intros Hh Hs. unfold FetchyResponseType.transport_options. rewrite spread_lookup.
  destruct (fetchOptions !! key); [reflexivity|].
  rewrite lookup_insert_ne by congruence. by rewrite lookup_singleton_ne.
Qed.

Lemma FetchyCache_other_entry
    (cache : value) (fetchOptions : gmap string value) (key : string) :
  key <> "headers" -> key <> "cache" ->
  FetchyCache.transport_options cache fetchOptions !! key = fetchOptions !! key.
Proof.
  intros Hh Hc. unfold FetchyCache.transport_options. rewrite !spread_lookup.
  destruct (fetchOptions !! key); [reflexivity|].
  destruct (decide (cache = VStr "no-cache")).
  - rewrite !lookup_singleton_ne by congruence. reflexivity.
  - rewrite lookup_empty. by rewrite lookup_singleton_ne.
Qed.

Lemma FetchyShouldCache_other_entry
    (shouldCache : value) (fetchOptions : gmap string value) (key : string) :
  key <> "headers" -> key <> "cache" ->
  FetchyShouldCache.transport_options shouldCache fetchOptions !! key
  = fetchOptions !! key.
Proof.
  intros Hh Hc. unfold FetchyShouldCache.transport_options. rewrite !spread_lookup.
  destruct (fetchOptions !! key); [reflexivity|].
  destruct (truthy_value shouldCache).
  - rewrite lookup_empty. by rewrite lookup_singleton_ne.
  - rewrite !lookup_singleton_ne by congruence. reflexivity.
Qed.

Ltac read_option :=
  rewrite ?FetchyLib_other_entry, ?FetchyResponseType_other_entry,
          ?FetchyCache_other_entry, ?FetchyShouldCache_other_entry by discriminate;
  rewrite ?omit_lookup_ne by discriminate;
  rewrite ?lookup_insert_ne by discriminate;
  rewrite ?lookup_insert_eq.

(** ** The method and the body of the convenience entry points *)

(** C9. Whatever options object the caller passes, also one with a
    [method] entry of its own, [get] issues a GET, [post] a POST, [put] a
    PUT and [delete] a DELETE; in each of the four variants. *)
Theorem convenience_methods_fix_method
    (w : World) (url : string) (body : JsonValue) (options : gmap string value) :
  (sends_method (FetchyLib.get w url options) url "GET"
   /\ sends_method (FetchyLib.post w url body options) url "POST"
   /\ sends_method (FetchyLib.put w url body options) url "PUT"
   /\ sends_method (FetchyLib.delete w url options) url "DELETE")
  /\ (sends_method (FetchyCache.get w url options) url "GET"
      /\ sends_method (FetchyCache.post w url body options) url "POST"
      /\ sends_method (FetchyCache.put w url body options) url "PUT"
      /\ sends_method (FetchyCache.delete w url options) url "DELETE")
  /\ (sends_method (FetchyResponseType.get w url options) url "GET"
      /\ sends_method (FetchyResponseType.post w url body options) url "POST"
      /\ sends_method (FetchyResponseType.put w url body options) url "PUT"
      /\ sends_method (FetchyResponseType.delete w url options) url "DELETE")
  /\ (sends_method (FetchyShouldCache.get w url options) url "GET"
      /\ sends_method (FetchyShouldCache.post w url body options) url "POST"
      /\ sends_method (FetchyShouldCache.put w url body options) url "PUT"
      /\ sends_method (FetchyShouldCache.delete w url options) url "DELETE").
Proof.
  repeat split; unfold sends_method; handed_over;
    read_option; reflexivity.
Qed.

(** The caller's own [method] loses against the entry point's. *)
Example get_overrides_method (w : World) :
  sends_method
    (FetchyLib.get w "/user/1" {[ "method" := VStr "POST" ]}) "/user/1" "GET".
Proof. handed_over. vm_compute. reflexivity. Qed.

(** C7. [post] and [put] hand the transport the JSON text of the body
    value (replacing a [body] entry of the caller's options); [get] and
    [delete] pass on whatever [body] entry the caller's options have, and
    add none. *)
Theorem post_put_send_json_text
    (w : World) (url : string) (b : JsonValue) (options : gmap string value) :
  let text_sent r :=
    hands_over r url (fun init => init !! "body" = Some (VStr (JSON_stringify b))) in
  let nothing_added r :=
    hands_over r url (fun init => init !! "body" = options !! "body") in
  (text_sent (FetchyLib.post w url b options)
   /\ text_sent (FetchyLib.put w url b options)
   /\ nothing_added (FetchyLib.get w url options)
   /\ nothing_added (FetchyLib.delete w url options))
  /\ (text_sent (FetchyCache.post w url b options)
      /\ text_sent (FetchyCache.put w url b options)
      /\ nothing_added (FetchyCache.get w url options)
      /\ nothing_added (FetchyCache.delete w url options))
  /\ (text_sent (FetchyResponseType.post w url b options)
      /\ text_sent (FetchyResponseType.put w url b options)
      /\ nothing_added (FetchyResponseType.get w url options)
      /\ nothing_added (FetchyResponseType.delete w url options))
  /\ (text_sent (FetchyShouldCache.post w url b options)
      /\ text_sent (FetchyShouldCache.put w url b options)
      /\ nothing_added (FetchyShouldCache.get w url options)
      /\ nothing_added (FetchyShouldCache.delete w url options)).
Proof.
  cbv zeta. repeat split; handed_over; read_option;
    reflexivity.
Qed.

Example post_user_scenario :
  let w := always (Resolves 20 (json_response 201 (JObj [("id", JNum 2); ("name", JStr "B")]))) in
  let r := FetchyLib.post w "/user" (JObj [("name", JStr "B")]) ∅ in
  hands_over r "/user"
    (fun init => init !! "body" = Some (VStr ("{" ++ quote "name" ++ ":" ++ quote "B" ++ "}"))
                 /\ init !! "method" = Some (VStr "POST"))
  /\ result r = Returned (DJson (JObj [("id", JNum 2); ("name", JStr "B")])).
Proof.
  cbv zeta. split; [handed_over; split; vm_compute; reflexivity|].
  vm_compute. reflexivity.
Qed.

Example get_user_scenario :
  let w := always (Resolves 20 (json_response 200 (JObj [("id", JNum 1); ("name", JStr "A")]))) in
  result (FetchyLib.get w "/user/1" ∅)
  = Returned (DJson (JObj [("id", JNum 1); ("name", JStr "A")])).
Proof. vm_compute. reflexivity. Qed.

Example get_user_trace :
  let w := always (Resolves 20 (json_response 200 (JObj [("id", JNum 1); ("name", JStr "A")]))) in
  trace (FetchyLib.get w "/user/1" ∅)
  = [SetTimeout 5000;
     Fetch "/user/1" (FetchyLib.transport_options {[ "method" := VStr "GET" ]});
     ReadBody "json";
     ClearTimeout].
Proof. vm_compute. reflexivity. Qed.

(** ** Headers *)

(** The merge that each literal computes has the intended shape: the
    caller's headers over the default [Content-Type]. *)
Lemma merged_headers_content_type (h : gmap string string) :
  spread {[ "Content-Type" := "application/json" ]} h !! "Content-Type"
  = match h !! "Content-Type" with
    | Some v => Some v
    | None => Some "application/json"
    end.
Proof. rewrite spread_lookup. destruct (h !! "Content-Type"); reflexivity. Qed.

(** It reaches the transport only when the caller's options have no
    [headers] entry at all. *)
Lemma headers_default_when_absent
    (w : World) (url : string) (options : gmap string value) :
  options !! "headers" = None ->
  let default_sent r :=
    hands_over r url
      (fun init => init !! "headers"
                   = Some (VRecord {[ "Content-Type" := "application/json" ]})) in
  default_sent (FetchyLib.request w url options)
  /\ default_sent (FetchyCache.request w url options)
  /\ default_sent (FetchyResponseType.request w url options)
  /\ default_sent (FetchyShouldCache.request w url options).
Proof.
  intros Hnone. cbv zeta. repeat split; handed_over.
  - unfold FetchyLib.transport_options, prop.
    rewrite spread_lookup, omit_lookup_ne, Hnone by discriminate.
    reflexivity.
  - unfold FetchyCache.transport_options, prop.
    rewrite !spread_lookup, omit_lookup_ne, Hnone by discriminate.
    destruct (decide _); reflexivity.
  - unfold FetchyResponseType.transport_options, prop.
    rewrite spread_lookup, omit_lookup_ne, Hnone by discriminate.
    reflexivity.
  - unfold FetchyShouldCache.transport_options, prop.
    rewrite !spread_lookup, omit_lookup_ne, Hnone by discriminate.
    destruct (truthy_value _); reflexivity.
Qed.

(** A [headers] entry of the caller's options replaces the merged
    headers as a whole. *)
Lemma headers_sent_as_given
    (w : World) (url : string) (options : gmap string value) (v : value) :
  options !! "headers" = Some v ->
  let as_given r := hands_over r url (fun init => init !! "headers" = Some v) in
  as_given (FetchyLib.request w url options)
  /\ as_given (FetchyCache.request w url options)
  /\ as_given (FetchyResponseType.request w url options)
  /\ as_given (FetchyShouldCache.request w url options).
Proof.
  intros Hv. cbv zeta. repeat split; handed_over.
  - apply FetchyLib_caller_entry. by rewrite omit_lookup_ne.
  - apply FetchyCache_caller_entry. by rewrite omit_lookup_ne.
  - apply FetchyResponseType_caller_entry. by rewrite omit_lookup_ne.
  - apply FetchyShouldCache_caller_entry. by rewrite omit_lookup_ne.
Qed.

(** C1, on the input where the code departs from it.  A caller who
    passes only an [Authorization] header has exactly that header handed
    to the transport, in each variant: the default [Content-Type] is
    gone although the caller did not redefine it. *)
Theorem authorization_only_drops_content_type (w : World) (url : string) :
  let headers : gmap string string := {[ "Authorization" := "Bearer t" ]} in
  let options : gmap string value := {[ "headers" := VRecord headers ]} in
  let sent r :=
    hands_over r url
      (fun init => init !! "headers" = Some (VRecord headers)) in
  headers !! "Content-Type" = None
  /\ sent (FetchyLib.get w url options)
  /\ sent (FetchyCache.get w url options)
  /\ sent (FetchyResponseType.get w url options)
  /\ sent (FetchyShouldCache.get w url options).
Proof.
  cbv zeta. split; [vm_compute; reflexivity|].
  repeat split; handed_over.
  - apply FetchyLib_caller_entry. vm_compute. reflexivity.
  - apply FetchyCache_caller_entry. vm_compute. reflexivity.
  - apply FetchyResponseType_caller_entry. vm_compute. reflexivity.
  - apply FetchyShouldCache_caller_entry. vm_compute. reflexivity.
Qed.

(** ** The caching flag *)

(** C8 as stated fails in the boolean variant: with [shouldCache: false]
    and a [cache] entry of the caller's own, the transport is handed the
    caller's entry, not ["no-cache"]. *)
Lemma shouldCache_false_with_own_cache :
  let options : gmap string value :=
    {[ "shouldCache" := VBool false; "cache" := VStr "force-cache" ]} in
  let r := FetchyShouldCache.request (always Hangs) "/user/1" options in
  options !! "shouldCache" = Some (VBool false)
  /\ sends_cache r "/user/1" (Some (VStr "force-cache"))
  /\ ~ sends_cache r "/user/1" (Some (VStr "no-cache")).
Proof.
  cbv zeta. split; [vm_compute; reflexivity|].
  split.
  - handed_over. vm_compute. reflexivity.
  - intros [init [Hissued Hcache]].
    rewrite FetchyShouldCache_issued in Hissued.
    injection Hissued as <-. vm_compute in Hcache. discriminate.
Qed.

(** C8, amended.  Boolean variant: [shouldCache: false] gives the
    transport [cache: "no-cache"] provided the caller's options have no
    [cache] entry of their own; with [shouldCache] absent or [true] the
    transport's [cache] entry is the caller's, if any.  Enum variant:
    [cache: "no-cache"] is handed on, and any other or no [cache] value
    leaves the transport without a [cache] entry. *)
Theorem cache_flag_translation
    (w : World) (url : string) (options : gmap string value) :
  (options !! "shouldCache" = Some (VBool false) ->
   options !! "cache" = None ->
   sends_cache (FetchyShouldCache.request w url options) url (Some (VStr "no-cache")))
  /\ (options !! "shouldCache" = None \/ options !! "shouldCache" = Some (VBool true) ->
      sends_cache (FetchyShouldCache.request w url options) url (options !! "cache"))
  /\ (options !! "cache" = Some (VStr "no-cache") ->
      sends_cache (FetchyCache.request w url options) url (Some (VStr "no-cache")))
  /\ (options !! "cache" <> Some (VStr "no-cache") ->
      sends_cache (FetchyCache.request w url options) url None).
Proof.
  repeat split.
  - intros Hflag Hnone. handed_over.
    unfold FetchyShouldCache.transport_options, prop.
    rewrite !spread_lookup, omit_lookup_ne, Hnone, Hflag by discriminate.
    reflexivity.
  - intros Hflag. handed_over.
    unfold FetchyShouldCache.transport_options.
    rewrite !spread_lookup, omit_lookup_ne by discriminate.
    destruct (options !! "cache"); [reflexivity|].
    unfold prop. destruct Hflag as [-> | ->]; reflexivity.
  - intros Hflag. handed_over.
    unfold FetchyCache.transport_options, prop, omit.
    rewrite !spread_lookup, lookup_delete_eq, Hflag.
    reflexivity.
  - intros Hflag. handed_over.
    unfold FetchyCache.transport_options, omit.
    rewrite !spread_lookup, lookup_delete_eq.
    destruct (decide (prop options "cache" = VStr "no-cache")) as [Heq | Hne].
    + exfalso. apply Hflag. unfold prop in Heq.
      destruct (options !! "cache"); congruence.
    + rewrite lookup_empty. by rewrite lookup_singleton_ne.
Qed.

Lemma cache_flag_translation_witness :
  sends_cache
    (FetchyShouldCache.request (always Hangs) "/user/1"
       {[ "shouldCache" := VBool false ]})
    "/user/1" (Some (VStr "no-cache"))
  /\ sends_cache
       (FetchyCache.request (always Hangs) "/user/1" {[ "cache" := VStr "no-cache" ]})
       "/user/1" (Some (VStr "no-cache"))
  /\ sends_cache
       (FetchyCache.request (always Hangs) "/user/1" {[ "cache" := VStr "default" ]})
       "/user/1" None.
Proof.
  split; [|split].
  - apply (proj1 (cache_flag_translation (always Hangs) "/user/1"
                    {[ "shouldCache" := VBool false ]})); reflexivity.
  - apply (proj1 (proj2 (proj2 (cache_flag_translation (always Hangs) "/user/1"
                                  {[ "cache" := VStr "no-cache" ]})))); reflexivity.
  - apply (proj2 (proj2 (proj2 (cache_flag_translation (always Hangs) "/user/1"
                                  {[ "cache" := VStr "default" ]})))).
    vm_compute. discriminate.
Defined.

(** src/lib/fetchy.ts documents [shouldCache] but has no code for it:
    the entry travels to the transport as it is and no [cache] directive
    is added. *)
Example lib_passes_shouldCache_on (w : World) :
  hands_over (FetchyLib.get w "/user/1" {[ "shouldCache" := VBool false ]}) "/user/1"
    (fun init => init !! "cache" = None
                 /\ init !! "shouldCache" = Some (VBool false)).
Proof. handed_over. split; vm_compute; reflexivity. Qed.

(** ** The outcome of a call, from the way its awaited [fetch] ends *)

Lemma FetchyLib_result (w : World) (url : string) (options : gmap string value) :
  result (FetchyLib.request w url options)
  = match FetchyLib.awaited w url options with
    | Hangs => Pending
    | Rejects _ e => Threw (rethrow e)
    | Resolves _ r =>
        if ok r then deliver DJson (json r)
        else http_failure "An error occurred while fetching the data." (Some r) r
    end.
Proof.
  unfold FetchyLib.request, FetchyLib.awaited, FetchyLib.timeout_ms, http_failure.
  destruct (race _ _ _) as [fired answer]. cbn [snd].
  rewrite after_result, try_finally_result, after_result.
  destruct answer as [t r | t e |]; try reflexivity.
  destruct (ok r); cbn [negb]; [reflexivity|].
  rewrite after_result.
  destruct (json r) as [e | j]; [reflexivity|].
  destruct (read_message j); reflexivity.
Qed.

Lemma FetchyCache_result (w : World) (url : string) (options : gmap string value) :
  result (FetchyCache.request w url options)
  = match FetchyCache.awaited w url options with
    | Hangs => Pending
    | Rejects _ e => Threw (rethrow e)
    | Resolves _ r =>
        if ok r then deliver DJson (json r)
        else http_failure "An error occurred" None r
    end.
Proof.
  unfold FetchyCache.request, FetchyCache.awaited, http_failure.
  rewrite after_result.
  destruct (fetch _ _ _) as [t r | t e |]; try reflexivity.
  destruct (ok r); cbn [negb]; [reflexivity|].
  rewrite after_result.
  destruct (json r) as [e | j]; [reflexivity|].
  destruct (read_message j); reflexivity.
Qed.

Lemma FetchyShouldCache_result (w : World) (url : string) (options : gmap string value) :
  result (FetchyShouldCache.request w url options)
  = match FetchyShouldCache.awaited w url options with
    | Hangs => Pending
    | Rejects _ e => Threw (rethrow e)
    | Resolves _ r =>
        if ok r then deliver DJson (json r)
        else http_failure "An error occurred while fetching the data." None r
    end.
Proof.
  unfold FetchyShouldCache.request, FetchyShouldCache.awaited, http_failure.
  rewrite after_result.
  destruct (fetch _ _ _) as [t r | t e |]; try reflexivity.
  destruct (ok r); cbn [negb]; [reflexivity|].
  rewrite after_result.
  destruct (json r) as [e | j]; [reflexivity|].
  destruct (read_message j); reflexivity.
Qed.

Lemma FetchyResponseType_result (w : World) (url : string) (options : gmap string value) :
  result (FetchyResponseType.request w url options)
  = match FetchyResponseType.awaited w url options with
    | Hangs => Pending
    | Rejects _ e => Threw (rethrow e)
    | Resolves _ r =>
        if ok r then result (FetchyResponseType.parseResponse r options)
        else if decide (prop options "responseType" = VStr "json")
             then http_failure "An error occurred while fetching the data." (Some r) r
             else Threw (new_Error "An error occurred while fetching the data." (Some r))
    end.
Proof.
  unfold FetchyResponseType.request, FetchyResponseType.awaited,
         FetchyResponseType.timeout_ms, http_failure.
  destruct (race _ _ _) as [fired answer]. cbn [snd].
  rewrite after_result, try_finally_result, after_result.
  destruct answer as [t r | t e |]; try reflexivity.
  destruct (ok r); cbn [negb]; [reflexivity|].
  destruct (decide _) as [Hjson | Hother]; [|reflexivity].
  rewrite after_result.
  destruct (json r) as [e | j]; [reflexivity|].
  destruct (read_message j); reflexivity.
Qed.

Lemma http_failure_throws (fallback : string) (c : option Response) (r : Response) :
  exists e, http_failure fallback c r = Threw e.
Proof.
  unfold http_failure. destruct (json r) as [e | j]; [eauto|].
  destruct (read_message j); eauto.
Qed.

(** The selected decoder alone decides what [parseResponse] delivers. *)
Lemma parseResponse_result (r : Response) (options : gmap string value) :
  let selected := or_else (prop options "responseType") (VStr "json") in
  result (FetchyResponseType.parseResponse r options)
  = if decide (selected = VStr "json") then deliver DJson (json r)
    else if decide (selected = VStr "text") then deliver DText (text r)
    else if decide (selected = VStr "blob") then deliver DBlob (blob r)
    else if decide (selected = VStr "arrayBuffer")
         then deliver DArrayBuffer (arrayBuffer r)
    else Threw (new_Error
                  ("Unsupported response type: "
                     ++ value_to_string (prop options "responseType")) None).
Proof.
  cbv zeta. unfold FetchyResponseType.parseResponse.
  repeat (destruct (decide _); [reflexivity|]). reflexivity.
Qed.

(** ** Status and outcome *)

(** C2 as stated fails: a 204 answer to [delete] has a success status and
    an empty body, the JSON decoder rejects, and so the call raises. *)
Lemma success_status_can_raise :
  let r := raw_response 204 "" "Unexpected end of JSON input" in
  let w := always (Resolves 20 r) in
  FetchyLib.awaited w "/user/1" {[ "method" := VStr "DELETE" ]} = Resolves 20 r
  /\ ok r = true
  /\ result (FetchyLib.delete w "/user/1" ∅)
     = Threw (rethrow (SyntaxError "Unexpected end of JSON input")).
Proof. cbv zeta. repeat split; vm_compute; reflexivity. Qed.

(** C2, amended.  When the transport returns a response, a non-success
    status always raises; on a success status the call returns the
    decoded body if the body decoder succeeds and raises the decoder's
    error if it rejects (in the [responseType] variant the decoder is the
    one [parseResponse] selects, which also raises for an unsupported
    format). *)
Theorem status_decides_outcome
    (w : World) (url : string) (options : gmap string value)
    (t : nat) (r : Response) :
  (FetchyLib.awaited w url options = Resolves t r ->
   status_rule r (FetchyLib.request w url options) (json_decoder r))
  /\ (FetchyCache.awaited w url options = Resolves t r ->
      status_rule r (FetchyCache.request w url options) (json_decoder r))
  /\ (FetchyShouldCache.awaited w url options = Resolves t r ->
      status_rule r (FetchyShouldCache.request w url options) (json_decoder r))
  /\ (FetchyResponseType.awaited w url options = Resolves t r ->
      status_rule r (FetchyResponseType.request w url options)
        (result (FetchyResponseType.parseResponse r options))).
Proof.
  unfold status_rule, json_decoder.
  split; [|split; [|split]]; intros Hawait.
  - rewrite FetchyLib_result, Hawait.
    split; intros ->; [apply http_failure_throws|].
    unfold deliver. destruct (json r); reflexivity.
  - rewrite FetchyCache_result, Hawait.
    split; intros ->; [apply http_failure_throws|].
    unfold deliver. destruct (json r); reflexivity.
  - rewrite FetchyShouldCache_result, Hawait.
    split; intros ->; [apply http_failure_throws|].
    unfold deliver. destruct (json r); reflexivity.
  - rewrite FetchyResponseType_result, Hawait.
    split; intros ->; [|reflexivity].
    destruct (decide _); [apply http_failure_throws | eauto].
Qed.

Lemma status_decides_outcome_witness :
  let r := json_response 200 (JObj [("id", JNum 1); ("name", JStr "A")]) in
  result (FetchyLib.request (always (Resolves 20 r)) "/user/1" ∅)
  = Returned (DJson (JObj [("id", JNum 1); ("name", JStr "A")])).
Proof.
  cbv zeta.
  set (r := json_response 200 (JObj [("id", JNum 1); ("name", JStr "A")])).
  destruct (status_decides_outcome (always (Resolves 20 r)) "/user/1" ∅ 20 r)
    as [Hlib _].
  assert (Ha : FetchyLib.awaited (always (Resolves 20 r)) "/user/1" ∅ = Resolves 20 r)
    by (vm_compute; reflexivity).
  destruct (Hlib Ha) as [_ Hok].
  apply Hok. vm_compute. reflexivity.
Defined.

(** ** The message of an HTTP failure *)

(** C3 as stated fails: when the error body is not JSON, the decoder's
    own error leaves the call, with the decoder's message and not the
    generic one. *)
Lemma undecodable_error_body :
  let complaint := "Unexpected token < in JSON at position 0" in
  let r := raw_response 502 "<html>Bad Gateway</html>" complaint in
  let x := FetchyLib.get (always (Resolves 20 r)) "/user/1" ∅ in
  ok r = false
  /\ json r = inl (SyntaxError complaint)
  /\ fails_with x (fun e => message e = complaint)
  /\ ~ fails_with x (fun e => message e = "An error occurred while fetching the data.").
Proof.
  cbv zeta. repeat split; try (vm_compute; reflexivity).
  - eexists. split; vm_compute; reflexivity.
  - intros [e [Hres Hmsg]]. vm_compute in Hres.
    injection Hres as <-. vm_compute in Hmsg. discriminate.
Qed.

Lemma http_failure_message_rule
    (fallback : string) (c : option Response) (r : Response) (x : run) :
  result x = http_failure fallback c r -> message_rule fallback r x.
Proof.
  intros Hres. unfold message_rule, fails_with. rewrite Hres. unfold http_failure.
  repeat split.
  - intros e ->. reflexivity.
  - intros j s -> -> Hs. eexists. split; [reflexivity|].
    cbn. destruct (String.eqb_spec s ""); [contradiction | reflexivity].
  - intros j -> ->. eexists. split; reflexivity.
Qed.

(** C3, amended.  For a call that the transport answers with a
    non-success status: if the body is JSON (other than [null]) with a
    non-empty string [message], the raised error has that message; if it
    is JSON without a [message], the raised error has the generic
    message; if the body is not JSON, the decoder's error is raised
    instead.  The [responseType] variant reads the body like this when
    [responseType] is ["json"], and raises the generic message without
    reading the body when [responseType] is another string. *)
Theorem failure_message
    (w : World) (url : string) (options : gmap string value)
    (t : nat) (r : Response) :
  ok r = false ->
  (FetchyLib.awaited w url options = Resolves t r ->
   message_rule "An error occurred while fetching the data." r
     (FetchyLib.request w url options))
  /\ (FetchyCache.awaited w url options = Resolves t r ->
      message_rule "An error occurred" r (FetchyCache.request w url options))
  /\ (FetchyShouldCache.awaited w url options = Resolves t r ->
      message_rule "An error occurred while fetching the data." r
        (FetchyShouldCache.request w url options))
  /\ (FetchyResponseType.awaited w url options = Resolves t r ->
      options !! "responseType" = Some (VStr "json") ->
      message_rule "An error occurred while fetching the data." r
        (FetchyResponseType.request w url options))
  /\ (FetchyResponseType.awaited w url options = Resolves t r ->
      forall s, options !! "responseType" = Some (VStr s) -> s <> "json" ->
      fails_with (FetchyResponseType.request w url options)
        (fun e => message e = "An error occurred while fetching the data.")).
Proof.
  intros Hok.
  split; [|split; [|split; [|split]]]; intros Hawait.
  - eapply http_failure_message_rule.
    rewrite FetchyLib_result, Hawait, Hok. reflexivity.
  - eapply http_failure_message_rule.
    rewrite FetchyCache_result, Hawait, Hok. reflexivity.
  - eapply http_failure_message_rule.
    rewrite FetchyShouldCache_result, Hawait, Hok. reflexivity.
  - intros Htype. eapply http_failure_message_rule.
    rewrite FetchyResponseType_result, Hawait, Hok.
    unfold prop. rewrite Htype.
    destruct (decide _); [reflexivity | congruence].
  - intros s Htype Hs. unfold fails_with.
    rewrite FetchyResponseType_result, Hawait, Hok.
    unfold prop. rewrite Htype.
    destruct (decide _); [congruence|].
    eexists. split; reflexivity.
Qed.

Lemma failure_message_witness :
  let r := json_response 404 (JObj [("message", JStr "not found")]) in
  fails_with (FetchyLib.request (always (Resolves 20 r)) "/missing" ∅)
    (fun e => message e = "not found").
Proof.
  cbv zeta.
  set (r := json_response 404 (JObj [("message", JStr "not found")])).
  assert (Hok : ok r = false) by (vm_compute; reflexivity).
  destruct (failure_message (always (Resolves 20 r)) "/missing" ∅ 20 r Hok)
    as [Hlib _].
  assert (Ha : FetchyLib.awaited (always (Resolves 20 r)) "/missing" ∅ = Resolves 20 r)
    by (vm_compute; reflexivity).
  destruct (Hlib Ha) as [_ [Hmsg _]].
  apply (Hmsg (JObj [("message", JStr "not found")]) "not found");
    [reflexivity | reflexivity | discriminate].
Defined.

(** C10.  When the transport answers with a non-success status and the
    body is a JSON object whose [message] is the empty string, the raised
    error carries the variant's generic message, not the empty string. *)
Theorem empty_message_gives_fallback
    (w : World) (url : string) (options : gmap string value)
    (t : nat) (r : Response) (members : list (string * JsonValue)) :
  ok r = false ->
  json r = inr (JObj members) ->
  member "message" members = Some (JStr "") ->
  (FetchyLib.awaited w url options = Resolves t r ->
   fails_with (FetchyLib.request w url options)
     (fun e => message e = "An error occurred while fetching the data."))
  /\ (FetchyCache.awaited w url options = Resolves t r ->
      fails_with (FetchyCache.request w url options)
        (fun e => message e = "An error occurred"))
  /\ (FetchyShouldCache.awaited w url options = Resolves t r ->
      fails_with (FetchyShouldCache.request w url options)
        (fun e => message e = "An error occurred while fetching the data."))
  /\ (FetchyResponseType.awaited w url options = Resolves t r ->
      fails_with (FetchyResponseType.request w url options)
        (fun e => message e = "An error occurred while fetching the data.")).
Proof.
  intros Hok Hbody Hmsg. unfold fails_with.
  split; [|split; [|split]]; intros Hawait.
  - rewrite FetchyLib_result, Hawait, Hok. unfold http_failure.
    rewrite Hbody. cbn. rewrite Hmsg. eexists. split; reflexivity.
  - rewrite FetchyCache_result, Hawait, Hok. unfold http_failure.
    rewrite Hbody. cbn. rewrite Hmsg. eexists. split; reflexivity.
  - rewrite FetchyShouldCache_result, Hawait, Hok. unfold http_failure.
    rewrite Hbody. cbn. rewrite Hmsg. eexists. split; reflexivity.
  - rewrite FetchyResponseType_result, Hawait, Hok. unfold http_failure.
    destruct (decide _); [|eexists; split; reflexivity].
    rewrite Hbody. cbn. rewrite Hmsg. eexists. split; reflexivity.
Qed.

Lemma empty_message_gives_fallback_witness :
  let r := json_response 400 (JObj [("message", JStr "")]) in
  fails_with (FetchyLib.request (always (Resolves 20 r)) "/user" ∅)
    (fun e => message e = "An error occurred while fetching the data.").
Proof.
  cbv zeta.
  set (r := json_response 400 (JObj [("message", JStr "")])).
  assert (Hok : ok r = false) by (vm_compute; reflexivity).
  assert (Hbody : json r = inr (JObj [("message", JStr "")])) by reflexivity.
  assert (Hmsg : member "message" [("message", JStr "")] = Some (JStr ""))
    by reflexivity.
  destruct (empty_message_gives_fallback (always (Resolves 20 r)) "/user" ∅ 20 r
              [("message", JStr "")] Hok Hbody Hmsg) as [Hlib _].
  apply Hlib. vm_compute. reflexivity.
Defined.

(** ** The response format *)

Ltac pick_decoder :=
  rewrite parseResponse_result; cbv zeta; unfold prop, or_else;
  match goal with H : _ !! "responseType" = _ |- _ => rewrite H end;
  cbn [truthy_value negb String.eqb Ascii.eqb Bool.eqb];
  repeat (destruct (decide _) as [Heq | Hne];
          [try discriminate Heq | try (exfalso; apply Hne; reflexivity)]);
  try reflexivity.

Lemma parseResponse_json (r : Response) (options : gmap string value) :
  options !! "responseType" = None \/ options !! "responseType" = Some (VStr "json") ->
  result (FetchyResponseType.parseResponse r options) = deliver DJson (json r).
Proof. intros [Htype | Htype]; pick_decoder. Qed.

Lemma parseResponse_text (r : Response) (options : gmap string value) :
  options !! "responseType" = Some (VStr "text") ->
  result (FetchyResponseType.parseResponse r options) = deliver DText (text r).
Proof. intros Htype. pick_decoder. Qed.

Lemma parseResponse_blob (r : Response) (options : gmap string value) :
  options !! "responseType" = Some (VStr "blob") ->
  result (FetchyResponseType.parseResponse r options) = deliver DBlob (blob r).
Proof. intros Htype. pick_decoder. Qed.

Lemma parseResponse_arrayBuffer (r : Response) (options : gmap string value) :
  options !! "responseType" = Some (VStr "arrayBuffer") ->
  result (FetchyResponseType.parseResponse r options)
  = deliver DArrayBuffer (arrayBuffer r).
Proof. intros Htype. pick_decoder. Qed.

(** C4.  In the [responseType] variant, a call that returns a value was
    answered with a success status, and the value is what the decoder
    named by [responseType] yielded: the parsed document for ["json"] and
    for an omitted [responseType], the string for ["text"], the blob for
    ["blob"], the bytes for ["arrayBuffer"]. *)
Theorem result_matches_response_type
    (w : World) (url : string) (options : gmap string value) (d : decoded) :
  result (FetchyResponseType.request w url options) = Returned d ->
  exists t r,
    FetchyResponseType.awaited w url options = Resolves t r
    /\ ok r = true
    /\ (options !! "responseType" = None \/ options !! "responseType" = Some (VStr "json") ->
        exists j, json r = inr j /\ d = DJson j)
    /\ (options !! "responseType" = Some (VStr "text") ->
        exists s, text r = inr s /\ d = DText s)
    /\ (options !! "responseType" = Some (VStr "blob") ->
        exists b, blob r = inr b /\ d = DBlob b)
    /\ (options !! "responseType" = Some (VStr "arrayBuffer") ->
        exists bytes, arrayBuffer r = inr bytes /\ d = DArrayBuffer bytes).
Proof.
  rewrite FetchyResponseType_result.
  destruct (FetchyResponseType.awaited w url options) as [t r | t e |];
    [|discriminate..].
  destruct (ok r) eqn:Hok.
  - intros Hres. exists t, r.
    split; [reflexivity|]. split; [exact Hok|].
    repeat split.
    + intros Htype. rewrite (parseResponse_json r options Htype) in Hres.
      unfold deliver in Hres. destruct (json r) as [e | j]; [discriminate|].
      injection Hres as <-. eauto.
    + intros Htype. rewrite (parseResponse_text r options Htype) in Hres.
      unfold deliver in Hres. destruct (text r) as [e | s]; [discriminate|].
      injection Hres as <-. eauto.
    + intros Htype. rewrite (parseResponse_blob r options Htype) in Hres.
      unfold deliver in Hres. destruct (blob r) as [e | b]; [discriminate|].
      injection Hres as <-. eauto.
    + intros Htype. rewrite (parseResponse_arrayBuffer r options Htype) in Hres.
      unfold deliver in Hres. destruct (arrayBuffer r) as [e | bytes]; [discriminate|].
      injection Hres as <-. eauto.
  - destruct (decide _) as [Hjson | Hother]; [|discriminate].
    destruct (http_failure_throws "An error occurred while fetching the data."
                (Some r) r) as [e ->].
    discriminate.
Qed.

Lemma result_matches_response_type_witness :
  let r := json_response 200 (JObj [("id", JNum 1)]) in
  let options : gmap string value := {[ "responseType" := VStr "text" ]} in
  exists s, text r = inr s /\ DText (JSON_stringify (JObj [("id", JNum 1)])) = DText s.
Proof.
  cbv zeta.
  set (r := json_response 200 (JObj [("id", JNum 1)])).
  set (options := ({[ "responseType" := VStr "text" ]} : gmap string value)).
  assert (Hres : result (FetchyResponseType.request (always (Resolves 20 r)) "/user/1" options)
                 = Returned (DText (JSON_stringify (JObj [("id", JNum 1)]))))
    by (vm_compute; reflexivity).
  destruct (result_matches_response_type _ _ _ _ Hres)
    as [t [r' [Hawait [Hok [_ [Htext _]]]]]].
  assert (Ha : FetchyResponseType.awaited (always (Resolves 20 r)) "/user/1" options
               = Resolves 20 r) by (vm_compute; reflexivity).
  rewrite Ha in Hawait. injection Hawait as _ <-.
  apply Htext. reflexivity.
Defined.

(** C5 as stated fails: with [responseType: "xml"] the request is handed
    to the transport all the same; the unsupported-type error is raised
    only once a success answer is back, and a 404 answer raises the
    HTTP-failure error instead. *)
Lemma unsupported_type_after_fetch :
  let options : gmap string value := {[ "responseType" := VStr "xml" ]} in
  let x := FetchyResponseType.get
             (always (Resolves 20 (json_response 200 (JObj [("id", JNum 1)]))))
             "/user/1" options in
  let y := FetchyResponseType.get
             (always (Resolves 20 (json_response 404 (JObj []))))
             "/user/1" options in
  unrecognized (VStr "xml")
  /\ result x = Threw (new_Error "Unsupported response type: xml" None)
  /\ issued (trace x) <> []
  /\ fails_with y (fun e => message e = "An error occurred while fetching the data.").
Proof.
  cbv zeta. split; [|split; [|split]].
  - repeat split; discriminate.
  - vm_compute. reflexivity.
  - unfold FetchyResponseType.get. rewrite FetchyResponseType_issued. discriminate.
  - eexists. split; vm_compute; reflexivity.
Qed.

Lemma parseResponse_unsupported (r : Response) (options : gmap string value) (v : value) :
  options !! "responseType" = Some v -> unrecognized v ->
  result (FetchyResponseType.parseResponse r options)
  = Threw (new_Error ("Unsupported response type: " ++ value_to_string v) None).
Proof.
  intros Htype (Htruthy & Hj & Ht & Hb & Ha).
  rewrite parseResponse_result. cbv zeta. unfold prop, or_else.
  rewrite Htype, Htruthy.
  repeat (destruct (decide _) as [Heq | _]; [congruence|]).
  reflexivity.
Qed.

(** C5, amended.  A call whose [responseType] is unrecognized is handed
    to the transport like any other (the unrecognized value included);
    it fails with "Unsupported response type: ..." once the transport has
    returned a success status, with the generic HTTP-failure error on a
    non-success status, and with the transport's own error when the
    transport fails. *)
Theorem unsupported_response_type
    (w : World) (url : string) (options : gmap string value) (v : value) :
  options !! "responseType" = Some v ->
  unrecognized v ->
  let x := FetchyResponseType.request w url options in
  hands_over x url (fun init => init !! "responseType" = Some v)
  /\ (forall t r, FetchyResponseType.awaited w url options = Resolves t r ->
        ok r = true ->
        result x
        = Threw (new_Error ("Unsupported response type: " ++ value_to_string v) None))
  /\ (forall t r, FetchyResponseType.awaited w url options = Resolves t r ->
        ok r = false ->
        result x
        = Threw (new_Error "An error occurred while fetching the data." (Some r)))
  /\ (forall t e, FetchyResponseType.awaited w url options = Rejects t e ->
        result x = Threw (rethrow e)).
Proof.
  intros Htype Hun. cbv zeta. split; [|split; [|split]].
  - handed_over. apply FetchyResponseType_caller_entry.
    by rewrite omit_lookup_ne.
  - intros t r Hawait Hok.
    rewrite FetchyResponseType_result, Hawait, Hok.
    by apply parseResponse_unsupported.
  - intros t r Hawait Hok.
    rewrite FetchyResponseType_result, Hawait, Hok.
    unfold prop. rewrite Htype.
    destruct Hun as (_ & Hj & _).
    destruct (decide _); [congruence | reflexivity].
  - intros t e Hawait.
    rewrite FetchyResponseType_result, Hawait. reflexivity.
Qed.

Lemma unsupported_response_type_witness :
  hands_over
    (FetchyResponseType.request (always Hangs) "/user/1"
       {[ "responseType" := VStr "xml" ]})
    "/user/1" (fun init => init !! "responseType" = Some (VStr "xml")).
Proof.
  assert (Hun : unrecognized (VStr "xml")) by (repeat split; discriminate).
  assert (Htype : ({[ "responseType" := VStr "xml" ]} : gmap string value)
                    !! "responseType" = Some (VStr "xml")) by reflexivity.
  exact (proj1 (unsupported_response_type (always Hangs) "/user/1" _ _ Htype Hun)).
Defined.

(** ** The timeout *)

(** C6 as stated fails: when the caller's options carry a [signal] of
    their own, the transport is handed that signal and not the
    controller's.  With a 10 ms window and an answer after 50 ms the
    timer fires and aborts the controller, yet the call goes on and
    returns the decoded body. *)
Lemma caller_signal_outlives_timeout :
  let options : gmap string value :=
    {[ "timeout" := VNum 10; "signal" := VSignal (CallerSignal 0) ]} in
  let body := JObj [("id", JNum 1)] in
  let w := always (Resolves 50 (json_response 200 body)) in
  let x := FetchyLib.get w "/slow" options in
  FetchyLib.timeout_ms (<["method" := VStr "GET"]> options) = 10%nat
  /\ hands_over x "/slow"
       (fun init => init !! "signal" = Some (VSignal (CallerSignal 0))
                    /\ settled_by 10 (network w "/slow" init) = false)
  /\ In Abort (trace x)
  /\ result x = Returned (DJson body)
  /\ ~ fails_with x abort_style.
Proof.
  cbv zeta. split; [|split; [|split; [|split]]].
  - vm_compute. reflexivity.
  - handed_over. split; vm_compute; reflexivity.
  - vm_compute. tauto.
  - vm_compute. reflexivity.
  - intros [e [Hres _]]. vm_compute in Hres. discriminate.
Qed.

Lemma FetchyLib_timer_discipline (w : World) (url : string) (options : gmap string value) :
  timer_discipline (FetchyLib.timeout_ms options) (FetchyLib.request w url options).
Proof.
  unfold timer_discipline, FetchyLib.timeout_ms, FetchyLib.request.
  destruct (race _ _ _) as [fired answer].
  destruct answer as [t r | t e |].
  - destruct (ok r); cbn [negb].
    + destruct (json r), fired; eexists; (split; [|reflexivity]); reflexivity.
    + destruct (json r) as [e | j]; [|destruct (read_message j)];
        destruct fired; eexists; (split; [|reflexivity]); reflexivity.
  - destruct fired; eexists; (split; [|reflexivity]); reflexivity.
  - destruct fired; eexists; (split; [|reflexivity]); reflexivity.
Qed.

Lemma FetchyResponseType_timer_discipline
    (w : World) (url : string) (options : gmap string value) :
  timer_discipline (FetchyResponseType.timeout_ms options)
    (FetchyResponseType.request w url options).
Proof.
  unfold timer_discipline, FetchyResponseType.timeout_ms, FetchyResponseType.request.
  destruct (race _ _ _) as [fired answer].
  destruct answer as [t r | t e |].
  - destruct (ok r); cbn [negb].
    + unfold FetchyResponseType.parseResponse.
      repeat (destruct (decide _) as [Heq | _];
              [ match goal with
                | |- context [deliver _ ?b] => destruct b
                end;
                destruct fired; eexists; (split; [|reflexivity]); reflexivity |]).
      destruct fired; eexists; (split; [|reflexivity]); reflexivity.
    + destruct (decide _) as [Hjson | _].
      * destruct (json r) as [e | j]; [|destruct (read_message j)];
          destruct fired; eexists; (split; [|reflexivity]); reflexivity.
      * destruct fired; eexists; (split; [|reflexivity]); reflexivity.
  - destruct fired; eexists; (split; [|reflexivity]); reflexivity.
  - destruct fired; eexists; (split; [|reflexivity]); reflexivity.
Qed.

(** Without a [signal] entry in the caller's options, the transport
    listens to the controller's signal. *)
Lemma FetchyLib_own_signal (options : gmap string value) :
  options !! "signal" = None ->
  FetchyLib.transport_options (omit "timeout" options) !! "signal"
  = Some (VSignal OwnSignal).
Proof.
  intros Hnone. unfold FetchyLib.transport_options.
  rewrite spread_lookup, omit_lookup_ne, Hnone by discriminate. reflexivity.
Qed.

Lemma FetchyResponseType_own_signal (options : gmap string value) :
  options !! "signal" = None ->
  FetchyResponseType.transport_options (omit "timeout" options) !! "signal"
  = Some (VSignal OwnSignal).
Proof.
  intros Hnone. unfold FetchyResponseType.transport_options.
  rewrite spread_lookup, omit_lookup_ne, Hnone by discriminate. reflexivity.
Qed.

Lemma race_expires (delay : nat) (w : World) (url : string) (init : gmap string value) :
  init !! "signal" = Some (VSignal OwnSignal) ->
  settled_by delay (network w url init) = false ->
  race delay init (fetch w url init) = (true, Rejects delay AbortError).
Proof.
  intros Hsignal Hlate. unfold race, fetch, listens.
  rewrite Hsignal, Hlate. rewrite bool_decide_eq_true_2 by reflexivity.
  reflexivity.
Qed.

(** C6, amended.  The window is [timeout] when given and 5000 otherwise.
    For a call whose options carry no [signal] of their own: if the
    transport has not settled within the window, the timer aborts the
    controller and the call fails with an abort-style error.  For every
    call: the timer is armed first and disarmed last, exactly when the
    call settles (by a return, an HTTP failure, a transport failure or
    the timeout), so it cannot fire after the call has settled. *)
Theorem timeout_aborts_and_timer_is_cleared
    (w : World) (url : string) (options : gmap string value) :
  (options !! "timeout" = None -> FetchyLib.timeout_ms options = 5000%nat)
  /\ (forall n, options !! "timeout" = Some (VNum n) ->
        FetchyLib.timeout_ms options = Z.to_nat n)
  /\ FetchyResponseType.timeout_ms options = FetchyLib.timeout_ms options
  /\ (options !! "signal" = None ->
      let init := FetchyLib.transport_options (omit "timeout" options) in
      settled_by (FetchyLib.timeout_ms options) (network w url init) = false ->
      timed_out (FetchyLib.timeout_ms options) url init (FetchyLib.request w url options))
  /\ (options !! "signal" = None ->
      let init := FetchyResponseType.transport_options (omit "timeout" options) in
      settled_by (FetchyResponseType.timeout_ms options) (network w url init) = false ->
      timed_out (FetchyResponseType.timeout_ms options) url init
        (FetchyResponseType.request w url options))
  /\ timer_discipline (FetchyLib.timeout_ms options) (FetchyLib.request w url options)
  /\ timer_discipline (FetchyResponseType.timeout_ms options)
       (FetchyResponseType.request w url options).
Proof.
  split; [|split; [|split; [|split; [|split; [|split]]]]].
  - intros Hnone. unfold FetchyLib.timeout_ms, prop. rewrite Hnone. reflexivity.
  - intros n Hn. unfold FetchyLib.timeout_ms, prop. rewrite Hn. reflexivity.
  - reflexivity.
  - intros Hnone init Hlate. subst init.
    unfold timed_out, fails_with, FetchyLib.request.
    fold (FetchyLib.timeout_ms options).
    rewrite (race_expires _ _ _ _ (FetchyLib_own_signal options Hnone) Hlate).
    split; [|reflexivity].
    eexists. split; reflexivity.
  - intros Hnone init Hlate. subst init.
    unfold timed_out, fails_with, FetchyResponseType.request.
    fold (FetchyResponseType.timeout_ms options).
    rewrite (race_expires _ _ _ _ (FetchyResponseType_own_signal options Hnone) Hlate).
    split; [|reflexivity].
    eexists. split; reflexivity.
  - apply FetchyLib_timer_discipline.
  - apply FetchyResponseType_timer_discipline.
Qed.

Lemma timeout_aborts_and_timer_is_cleared_witness :
  let options : gmap string value := {[ "timeout" := VNum 10 ]} in
  let w := always (Resolves 50 (json_response 200 (JObj [("id", JNum 1)]))) in
  timed_out 10 "/slow" (FetchyLib.transport_options (omit "timeout" options))
    (FetchyLib.request w "/slow" options).
Proof.
  cbv zeta.
  set (options := ({[ "timeout" := VNum 10 ]} : gmap string value)).
  set (w := always (Resolves 50 (json_response 200 (JObj [("id", JNum 1)])))).
  destruct (timeout_aborts_and_timer_is_cleared w "/slow" options)
    as (_ & _ & _ & Hlib & _).
  assert (Hnone : options !! "signal" = None) by reflexivity.
  apply (Hlib Hnone). reflexivity.
Defined.

(** A call to a transport that never answers, with a 10 ms window. *)
Example slow_scenario :
  let x := FetchyLib.get (always Hangs) "/slow" {[ "timeout" := VNum 10 ]} in
  result x = Threw (rethrow AbortError) /\ fails_with x abort_style.
Proof.
  cbv zeta. split; [vm_compute; reflexivity|].
  eexists. split; vm_compute; reflexivity.
Qed.

(** The 404 scenario in the variants that read the error body. *)
Example missing_scenario :
  let w := always (Resolves 20 (json_response 404 (JObj [("message", JStr "not found")]))) in
  fails_with (FetchyLib.get w "/missing" ∅) (fun e => message e = "not found")
  /\ fails_with (FetchyCache.get w "/missing" ∅) (fun e => message e = "not found")
  /\ fails_with (FetchyShouldCache.get w "/missing" ∅) (fun e => message e = "not found").
Proof.
  cbv zeta. repeat split; eexists; split; vm_compute; reflexivity.
Qed.

(** The same scenario in the [responseType] variant with [responseType]
    left out: the failure branch compares [options.responseType] with
    ["json"] without the default that [parseResponse] applies, so the
    body is not read. *)
Example missing_scenario_responseType_omitted :
  let w := always (Resolves 20 (json_response 404 (JObj [("message", JStr "not found")]))) in
  fails_with (FetchyResponseType.get w "/missing" ∅)
    (fun e => message e = "An error occurred while fetching the data.")
  /\ fails_with (FetchyResponseType.get w "/missing" {[ "responseType" := VStr "json" ]})
       (fun e => message e = "not found").
Proof.
  cbv zeta. repeat split; eexists; split; vm_compute; reflexivity.
Qed.

(** * Further properties of the code *)

(** ** Options that pass through, and the one that does not *)

(** X1.  Every entry of the caller's options other than the wrapper's
    own option ([timeout], [cache], [shouldCache]) is handed to the
    transport unchanged, whatever its key; and [timeout] and
    [shouldCache] themselves never reach the transport. *)
Theorem caller_options_pass_through
    (w : World) (url : string) (options : gmap string value) :
  let passes own r :=
    hands_over r url
      (fun init => forall key v, key <> own -> options !! key = Some v ->
                                 init !! key = Some v) in
  let withholds own r := hands_over r url (fun init => init !! own = None) in
  passes "timeout" (FetchyLib.request w url options)
  /\ withholds "timeout" (FetchyLib.request w url options)
  /\ passes "timeout" (FetchyResponseType.request w url options)
  /\ withholds "timeout" (FetchyResponseType.request w url options)
  /\ passes "cache" (FetchyCache.request w url options)
  /\ passes "shouldCache" (FetchyShouldCache.request w url options)
  /\ withholds "shouldCache" (FetchyShouldCache.request w url options).
Proof.
  cbv zeta. repeat split; handed_over.
  - intros key v Hkey Hv. apply FetchyLib_caller_entry.
    rewrite omit_lookup_ne by congruence. exact Hv.
  - rewrite FetchyLib_other_entry by discriminate. apply lookup_delete_eq.
  - intros key v Hkey Hv. apply FetchyResponseType_caller_entry.
    rewrite omit_lookup_ne by congruence. exact Hv.
  - rewrite FetchyResponseType_other_entry by discriminate. apply lookup_delete_eq.
  - intros key v Hkey Hv. apply FetchyCache_caller_entry.
    rewrite omit_lookup_ne by congruence. exact Hv.
  - intros key v Hkey Hv. apply FetchyShouldCache_caller_entry.
    rewrite omit_lookup_ne by congruence. exact Hv.
  - rewrite FetchyShouldCache_other_entry by discriminate. apply lookup_delete_eq.
Qed.

Lemma caller_options_pass_through_witness :
  hands_over
    (FetchyLib.request (always Hangs) "/user/1"
       {[ "credentials" := VStr "include"; "timeout" := VNum 10 ]})
    "/user/1"
    (fun init => init !! "credentials" = Some (VStr "include")
                 /\ init !! "timeout" = None).
Proof.
  set (options := ({[ "credentials" := VStr "include"; "timeout" := VNum 10 ]}
                   : gmap string value)).
  destruct (caller_options_pass_through (always Hangs) "/user/1" options)
    as ([init [Hinit Hpass]] & [init' [Hinit' Hnone]] & _).
  exists init. split; [exact Hinit|]. split.
  - apply (Hpass "credentials" (VStr "include")); [discriminate | reflexivity].
  - rewrite Hinit in Hinit'. injection Hinit' as ->. exact Hnone.
Defined.

(** ** Default headers *)

(** X2.  When the caller's options have no [headers] entry, every entry
    point of every variant hands the transport exactly one header,
    [Content-Type: application/json]; so do the callable shorthand and
    [async] of the [responseType] variant, also with options left out. *)
Theorem no_headers_gives_json_content_type
    (w : World) (url : string) (b : JsonValue) (options : gmap string value) :
  options !! "headers" = None ->
  let default_sent r :=
    hands_over r url
      (fun init => init !! "headers"
                   = Some (VRecord {[ "Content-Type" := "application/json" ]})) in
  (default_sent (FetchyLib.get w url options)
   /\ default_sent (FetchyLib.post w url b options)
   /\ default_sent (FetchyLib.put w url b options)
   /\ default_sent (FetchyLib.delete w url options))
  /\ (default_sent (FetchyCache.get w url options)
      /\ default_sent (FetchyCache.post w url b options)
      /\ default_sent (FetchyCache.put w url b options)
      /\ default_sent (FetchyCache.delete w url options))
  /\ (default_sent (FetchyResponseType.get w url options)
      /\ default_sent (FetchyResponseType.post w url b options)
      /\ default_sent (FetchyResponseType.put w url b options)
      /\ default_sent (FetchyResponseType.delete w url options)
      /\ default_sent (FetchyResponseType.async w url options)
      /\ default_sent (FetchyResponseType.call w url (Some options))
      /\ default_sent (FetchyResponseType.call w url None))
  /\ (default_sent (FetchyShouldCache.get w url options)
      /\ default_sent (FetchyShouldCache.post w url b options)
      /\ default_sent (FetchyShouldCache.put w url b options)
      /\ default_sent (FetchyShouldCache.delete w url options)).
Proof.
  intros Hnone. cbv zeta.
  assert (Hget : forall m : string,
             (<["method" := VStr m]> options) !! "headers" = None)
    by (intros m; rewrite lookup_insert_ne by discriminate; exact Hnone).
  assert (Hbody : forall (m : string) (x : value),
             (<["body" := x]> (<["method" := VStr m]> options)) !! "headers" = None)
    by (intros m x; rewrite lookup_insert_ne by discriminate; apply Hget).
  assert (Hempty : (<["method" := VStr "GET"]> (∅ : gmap string value)) !! "headers"
                   = None) by reflexivity.
  repeat split;
    first [ apply (headers_default_when_absent w url _ (Hget _))
          | apply (headers_default_when_absent w url _ (Hbody _ _))
          | apply (headers_default_when_absent w url _ Hempty) ].
Qed.

Lemma no_headers_gives_json_content_type_witness :
  hands_over
    (FetchyLib.post (always Hangs) "/user" (JObj [("name", JStr "B")]) ∅) "/user"
    (fun init => init !! "headers"
                 = Some (VRecord {[ "Content-Type" := "application/json" ]})).
Proof.
  assert (Hnone : (∅ : gmap string value) !! "headers" = None) by reflexivity.
  destruct (no_headers_gives_json_content_type (always Hangs) "/user"
              (JObj [("name", JStr "B")]) ∅ Hnone) as [[_ [Hpost _]] _].
  exact Hpost.
Defined.

(** ** Reading the body *)

Lemma body_reads_app (a b : list event) :
  body_reads (a ++ b) = (body_reads a ++ body_reads b)%list.
Proof.
  induction a as [|ev a IH]; [reflexivity|].
  destruct ev; simpl; rewrite IH; reflexivity.
Qed.

Lemma try_finally_body_reads (body : run) :
  body_reads (trace (try_finally body [ClearTimeout])) = body_reads (trace body).
Proof.
  unfold try_finally.
  destruct (result body); simpl; rewrite ?body_reads_app, ?app_nil_r; reflexivity.
Qed.

Ltac reads_cases :=
  unfold reads_once; cbn;
  repeat split; intros; simplify_eq; try reflexivity; try (cbn; lia).

Lemma FetchyLib_reads_once (w : World) (url : string) (options : gmap string value) :
  reads_once (FetchyLib.awaited w url options) (FetchyLib.request w url options).
Proof.
  unfold FetchyLib.awaited, FetchyLib.timeout_ms, FetchyLib.request.
  destruct (race _ _ _) as [fired answer]. cbn [snd].
  destruct answer as [t r | t e |]; [destruct (ok r); cbn [negb] |..].
  - destruct (json r), fired; reads_cases.
  - destruct (json r) as [e | j]; [|destruct (read_message j)];
      destruct fired; reads_cases.
  - destruct fired; reads_cases.
  - destruct fired; reads_cases.
Qed.

Lemma FetchyCache_reads_once (w : World) (url : string) (options : gmap string value) :
  reads_once (FetchyCache.awaited w url options) (FetchyCache.request w url options).
Proof.
  unfold FetchyCache.awaited, FetchyCache.request.
  destruct (fetch _ _ _) as [t r | t e |]; [destruct (ok r); cbn [negb] |..].
  - destruct (json r); reads_cases.
  - destruct (json r) as [e | j]; [|destruct (read_message j)]; reads_cases.
  - reads_cases.
  - reads_cases.
Qed.

Lemma FetchyShouldCache_reads_once
    (w : World) (url : string) (options : gmap string value) :
  reads_once (FetchyShouldCache.awaited w url options)
    (FetchyShouldCache.request w url options).
Proof.
  unfold FetchyShouldCache.awaited, FetchyShouldCache.request.
  destruct (fetch _ _ _) as [t r | t e |]; [destruct (ok r); cbn [negb] |..].
  - destruct (json r); reads_cases.
  - destruct (json r) as [e | j]; [|destruct (read_message j)]; reads_cases.
  - reads_cases.
  - reads_cases.
Qed.

Lemma FetchyResponseType_reads_once
    (w : World) (url : string) (options : gmap string value) :
  reads_once (FetchyResponseType.awaited w url options)
    (FetchyResponseType.request w url options).
Proof.
  unfold FetchyResponseType.awaited, FetchyResponseType.timeout_ms,
         FetchyResponseType.request.
  destruct (race _ _ _) as [fired answer]. cbn [snd].
  destruct answer as [t r | t e |]; [destruct (ok r); cbn [negb] |..].
  - unfold FetchyResponseType.parseResponse.
    repeat (destruct (decide _) as [Heq | _];
            [ match goal with
              | |- context [deliver _ ?b] => destruct b
              end; destruct fired; reads_cases |]).
    destruct fired; reads_cases.
  - destruct (decide _) as [Hjson | _].
    + destruct (json r) as [e | j]; [|destruct (read_message j)];
        destruct fired; reads_cases.
    + destruct fired; reads_cases.
  - destruct fired; reads_cases.
  - destruct fired; reads_cases.
Qed.

(** X3.  In every variant a call invokes at most one body decoder; a
    call that returns a value invoked exactly the decoder that value
    comes from; and when the transport fails the body is not read and
    the transport's own error is raised as it is, without a cause. *)
Theorem body_is_read_at_most_once
    (w : World) (url : string) (options : gmap string value) :
  reads_once (FetchyLib.awaited w url options) (FetchyLib.request w url options)
  /\ reads_once (FetchyCache.awaited w url options) (FetchyCache.request w url options)
  /\ reads_once (FetchyResponseType.awaited w url options)
       (FetchyResponseType.request w url options)
  /\ reads_once (FetchyShouldCache.awaited w url options)
       (FetchyShouldCache.request w url options).
Proof.
  split; [apply FetchyLib_reads_once|].
  split; [apply FetchyCache_reads_once|].
  split; [apply FetchyResponseType_reads_once | apply FetchyShouldCache_reads_once].
Qed.

Lemma body_is_read_at_most_once_witness :
  let e := {| exn_name := "TypeError"; exn_message := "Failed to fetch" |} in
  let x := FetchyCache.request (always (Rejects 5 e)) "/user/1" ∅ in
  result x = Threw (rethrow e) /\ body_reads (trace x) = [].
Proof.
  cbv zeta.
  set (e := {| exn_name := "TypeError"; exn_message := "Failed to fetch" |}).
  destruct (body_is_read_at_most_once (always (Rejects 5 e)) "/user/1" ∅)
    as (_ & (_ & _ & Hfail & _) & _).
  apply (Hfail 5%nat e). reflexivity.
Defined.

(** ** The error of an HTTP failure *)

(** X4.  When a non-success response has a JSON body other than [null],
    the error raised is an [Error] built by the wrapper; the two timeout
    variants attach the response as its cause, the two cache variants
    attach nothing. *)
Theorem failure_error_cause
    (w : World) (url : string) (options : gmap string value)
    (t : nat) (r : Response) (j : JsonValue) (m : option JsonValue) :
  ok r = false ->
  json r = inr j ->
  read_message j = inr m ->
  (FetchyLib.awaited w url options = Resolves t r ->
   fails_with (FetchyLib.request w url options)
     (fun e => name e = "Error" /\ cause e = Some r))
  /\ (FetchyResponseType.awaited w url options = Resolves t r ->
      fails_with (FetchyResponseType.request w url options)
        (fun e => name e = "Error" /\ cause e = Some r))
  /\ (FetchyCache.awaited w url options = Resolves t r ->
      fails_with (FetchyCache.request w url options)
        (fun e => name e = "Error" /\ cause e = None))
  /\ (FetchyShouldCache.awaited w url options = Resolves t r ->
      fails_with (FetchyShouldCache.request w url options)
        (fun e => name e = "Error" /\ cause e = None)).
Proof.
  intros Hok Hbody Hread. unfold fails_with.
  split; [|split; [|split]]; intros Hawait.
  - rewrite FetchyLib_result, Hawait, Hok. unfold http_failure.
    rewrite Hbody, Hread. eexists. split; [reflexivity|]. split; reflexivity.
  - rewrite FetchyResponseType_result, Hawait, Hok. unfold http_failure.
    destruct (decide _) as [Hjson | Hother].
    + rewrite Hbody, Hread. eexists. split; [reflexivity|]. split; reflexivity.
    + eexists. split; [reflexivity|]. split; reflexivity.
  - rewrite FetchyCache_result, Hawait, Hok. unfold http_failure.
    rewrite Hbody, Hread. eexists. split; [reflexivity|]. split; reflexivity.
  - rewrite FetchyShouldCache_result, Hawait, Hok. unfold http_failure.
    rewrite Hbody, Hread. eexists. split; [reflexivity|]. split; reflexivity.
Qed.

Lemma failure_error_cause_witness :
  let r := json_response 404 (JObj [("message", JStr "not found")]) in
  fails_with (FetchyLib.request (always (Resolves 20 r)) "/missing" ∅)
    (fun e => name e = "Error" /\ cause e = Some r).
Proof.
  cbv zeta.
  set (r := json_response 404 (JObj [("message", JStr "not found")])).
  assert (Hok : ok r = false) by (vm_compute; reflexivity).
  assert (Hbody : json r = inr (JObj [("message", JStr "not found")])) by reflexivity.
  assert (Hread : read_message (JObj [("message", JStr "not found")])
                  = inr (Some (JStr "not found"))) by reflexivity.
  destruct (failure_error_cause (always (Resolves 20 r)) "/missing" ∅ 20 r _ _
              Hok Hbody Hread) as [Hlib _].
  apply Hlib. vm_compute. reflexivity.
Defined.



(** X6.  A non-success response whose body is the JSON value [null]
    makes the read of [message] itself throw: the call fails with that
    [TypeError], which carries no cause, and not with an [Error] of the
    wrapper.  The [responseType] variant does so when [responseType] is
    ["json"]. *)
Theorem null_error_body
    (w : World) (url : string) (options : gmap string value)
    (t : nat) (r : Response) :
  ok r = false ->
  json r = inr JNull ->
  let type_error x :=
    fails_with x (fun e => name e = "TypeError" /\ cause e = None) in
  (FetchyLib.awaited w url options = Resolves t r ->
   type_error (FetchyLib.request w url options))
  /\ (FetchyCache.awaited w url options = Resolves t r ->
      type_error (FetchyCache.request w url options))
  /\ (FetchyShouldCache.awaited w url options = Resolves t r ->
      type_error (FetchyShouldCache.request w url options))
  /\ (FetchyResponseType.awaited w url options = Resolves t r ->
      options !! "responseType" = Some (VStr "json") ->
      type_error (FetchyResponseType.request w url options)).
Proof.
  intros Hok Hbody. cbv zeta. unfold fails_with.
  split; [|split; [|split]]; intros Hawait.
  - rewrite FetchyLib_result, Hawait, Hok. unfold http_failure.
    rewrite Hbody. eexists. split; [reflexivity|]. split; reflexivity.
  - rewrite FetchyCache_result, Hawait, Hok. unfold http_failure.
    rewrite Hbody. eexists. split; [reflexivity|]. split; reflexivity.
  - rewrite FetchyShouldCache_result, Hawait, Hok. unfold http_failure.
    rewrite Hbody. eexists. split; [reflexivity|]. split; reflexivity.
  - intros Htype.
    rewrite FetchyResponseType_result, Hawait, Hok. unfold http_failure, prop.
    rewrite Htype. destruct (decide _) as [_ | Hne]; [|congruence].
    rewrite Hbody. eexists. split; [reflexivity|]. split; reflexivity.
Qed.

Lemma null_error_body_witness :
  fails_with
    (FetchyLib.request (always (Resolves 20 (json_response 500 JNull))) "/user" ∅)
    (fun e => name e = "TypeError" /\ cause e = None).
Proof.
  set (r := json_response 500 JNull).
  assert (Hok : ok r = false) by (vm_compute; reflexivity).
  assert (Hbody : json r = inr JNull) by reflexivity.
  destruct (null_error_body (always (Resolves 20 r)) "/user" ∅ 20 r Hok Hbody)
    as [Hlib _].
  apply Hlib. vm_compute. reflexivity.
Defined.

(** ** Settling *)






(** X9.  A [timeout] of zero or less does not switch the timeout off: it
    is a window of 0 ms, so a call without a [signal] of its own fails
    with an abort-style error unless the transport settles at once. *)
Theorem zero_timeout_aborts
    (w : World) (url : string) (options : gmap string value) (n : Z) :
  options !! "timeout" = Some (VNum n) ->
  n <= 0 ->
  options !! "signal" = None ->
  (settled_by 0 (network w url (FetchyLib.transport_options (omit "timeout" options)))
   = false ->
   fails_with (FetchyLib.request w url options) abort_style)
  /\ (settled_by 0
        (network w url (FetchyResponseType.transport_options (omit "timeout" options)))
      = false ->
      fails_with (FetchyResponseType.request w url options) abort_style).
Proof.
  intros Htimeout Hn Hnone.
  assert (Hzero : timer_delay (or_default (VNum 5000) (prop options "timeout")) = 0%nat).
  { unfold prop. rewrite Htimeout. cbn. lia. }
  split; intros Hlate.
  - unfold fails_with. rewrite FetchyLib_result.
    unfold FetchyLib.awaited, FetchyLib.timeout_ms. rewrite Hzero.
    rewrite (race_expires _ _ _ _ (FetchyLib_own_signal options Hnone) Hlate).
    eexists. split; reflexivity.
  - unfold fails_with. rewrite FetchyResponseType_result.
    unfold FetchyResponseType.awaited, FetchyResponseType.timeout_ms. rewrite Hzero.
    rewrite (race_expires _ _ _ _ (FetchyResponseType_own_signal options Hnone) Hlate).
    eexists. split; reflexivity.
Qed.

Lemma zero_timeout_aborts_witness :
  fails_with
    (FetchyLib.request
       (always (Resolves 20 (json_response 200 (JObj [("id", JNum 1)]))))
       "/user/1" {[ "timeout" := VNum 0 ]})
    abort_style.
Proof.
  set (options := ({[ "timeout" := VNum 0 ]} : gmap string value)).
  assert (Htimeout : options !! "timeout" = Some (VNum 0)) by reflexivity.
  assert (Hn : 0 <= 0) by lia.
  assert (Hnone : options !! "signal" = None) by reflexivity.
  apply (proj1 (zero_timeout_aborts _ "/user/1" options 0 Htimeout Hn Hnone)).
  reflexivity.
Defined.

(** ** The pre-commit hook *)

(** X10.  The hook lets the commit through (exit status 0) exactly when
    the prettier check succeeds.  After a failed check it rewrites the
    files and still stops the commit with status 1, whatever the rewrite
    returns; after a successful check it rewrites nothing. *)
Theorem hook_follows_the_check (check write : nat) :
  let run := PreCommit.hook check write in
  (PreCommit.exit_status run = 0%nat <-> check = 0%nat)
  /\ (check <> 0%nat -> PreCommit.exit_status run = 1%nat)
  /\ (In PreCommit.PrettierWrite (PreCommit.commands run) <-> check <> 0%nat)
  /\ hd_error (PreCommit.commands run) = Some PreCommit.PrettierCheck.
Proof.
  cbv zeta. unfold PreCommit.hook.
  destruct (Nat.eqb_spec check 0) as [-> | Hne]; cbn.
  - repeat split; try (intros; congruence); try tauto.
    intros [H | []]. discriminate.
  - repeat split; try (intros; congruence); try tauto; try lia.
Qed.

Lemma hook_follows_the_check_witness :
  PreCommit.exit_status (PreCommit.hook 2 0) = 1%nat.
Proof.
  apply (proj1 (proj2 (hook_follows_the_check 2 0))). discriminate.
Defined.

(** ** The variants against each other *)

(** X11.  With [responseType: "json"] the [responseType] variant does
    exactly what src/lib/fetchy.ts does on the same options: the same
    request to the transport, the same timer and body events, the same
    value or error. *)
Theorem responseType_json_agrees_with_lib
    (w : World) (url : string) (options : gmap string value) :
  options !! "responseType" = Some (VStr "json") ->
  FetchyResponseType.request w url options = FetchyLib.request w url options.
Proof.
  intros Htype.
  unfold FetchyResponseType.request, FetchyLib.request.
  change (FetchyResponseType.transport_options (omit "timeout" options))
    with (FetchyLib.transport_options (omit "timeout" options)).
  destruct (race _ _ _) as [fired answer].
  destruct answer as [t r | t e |]; [|reflexivity..].
  unfold FetchyResponseType.parseResponse, or_else, prop.
  rewrite Htype. cbn [truthy_value negb String.eqb Ascii.eqb Bool.eqb].
  destruct (decide (VStr "json" = VStr "json")) as [_ | Hne]; [|congruence].
  destruct (ok r); reflexivity.
Qed.

Lemma responseType_json_agrees_with_lib_witness :
  let w := always (Resolves 20 (json_response 404 (JObj [("message", JStr "not found")]))) in
  let options : gmap string value := {[ "responseType" := VStr "json" ]} in
  FetchyResponseType.request w "/missing" options = FetchyLib.request w "/missing" options.
Proof.
  cbv zeta.
  apply responseType_json_agrees_with_lib. reflexivity.
Defined.
